(** * The Wayback Machine infobar of brave-core

    A shallow embedding of
    [browser/ui/views/infobars/brave_wayback_machine_infobar_view.cc]:
    the container of child controls ([InfoBarViewSubViews]), the infobar view
    that owns it ([BraveWaybackMachineInfoBarView]), the request started by a
    press of the check button and the handler of its completion.

    The view objects live in a store addressed by pointers, as the vectors of
    the source hold [views::View*].  Calls into the browser (the loader, the
    navigation controller, the infobar service) are appended to a log.  A
    failed [CHECK] of the base library and the use of a pointer that names no
    object end a run with a [Fault]. *)

From stdpp Require Import base option list strings.
From Stdlib Require Import ZArith Ascii Lia.

Open Scope Z_scope.
Set Warnings "-register-all".

(** ** Runs that may stop early *)

Inductive FaultKind : Type :=
| CHECK_failed      (* a CHECK() of the base library did not hold *)
| invalid_pointer.  (* a pointer that names no live view was used *)

Inductive Result (A : Type) : Type :=
| Ok (a : A)
| Fault (f : FaultKind).
Arguments Ok {A} a.
Arguments Fault {A} f.

Definition bind_result {A B : Type} (r : Result A) (k : A → Result B) : Result B :=
  match r with
  | Ok a => k a
  | Fault f => Fault f
  end.

(** ** The toolkit, as far as this file calls it *)

(** [SkColor]: a 32-bit ARGB colour. *)
Definition SkColor : Type := Z.

Definition SkColorSetARGB (a r g b : Z) : SkColor :=
  Z.lor (Z.shiftl a 24) (Z.lor (Z.shiftl r 16) (Z.lor (Z.shiftl g 8) b)).

Definition SkColorSetRGB (r g b : Z) : SkColor := SkColorSetARGB 0xff r g b.

(** A theme provider answers a colour for every colour id. *)
Definition ThemeProvider : Type := Z → SkColor.

(** The string resources this file shows. *)
Inductive MessageId : Type :=
| IDS_BRAVE_WAYBACK_MACHINE_INFOBAR_PAGE_MISSING_TEXT
| IDS_BRAVE_WAYBACK_MACHINE_INFOBAR_ASK_ABOUT_CHECK_TEXT
| IDS_BRAVE_WAYBACK_MACHINE_INFOBAR_NOT_AVAILABLE_TEXT
| IDS_BRAVE_WAYBACK_MACHINE_CHECK_BUTTON_TEXT.

Inductive DistanceMetric : Type :=
| DISTANCE_TOAST_LABEL_VERTICAL
| DISTANCE_TOAST_CONTROL_VERTICAL.

Inductive ImageId : Type :=
| IDR_CRASH_SAD_FAVICON.

(** Constants and lookups of the host that the source names but does not
    define: they are parameters of the development. *)
Class Toolkit : Type := {
  kPlaceholderColor : SkColor;                 (* gfx::kPlaceholderColor *)
  COLOR_INFOBAR : Z;                           (* ThemeProperties::COLOR_INFOBAR *)
  COLOR_BOOKMARK_TEXT : Z;                     (* ThemeProperties::COLOR_BOOKMARK_TEXT *)
  GetStringUTF16 : MessageId → string;         (* l10n_util::GetStringUTF16 *)
  GetDistanceMetric : DistanceMetric → Z;      (* ChromeLayoutProvider::GetDistanceMetric *)
}.

(** [gfx::Insets]: the four-argument constructor takes top, left, bottom,
    right; the two-argument one takes vertical, horizontal. *)
Record Insets : Type := mkInsets {
  inset_top : Z; inset_left : Z; inset_bottom : Z; inset_right : Z
}.

Definition Insets2 (vertical horizontal : Z) : Insets :=
  mkInsets vertical horizontal vertical horizontal.

Inductive MinimumFlexSizeRule : Type := kScaleToMinimum | kScaleToZero.
Inductive MaximumFlexSizeRule : Type := kPreferred | kUnbounded.

Record FlexSpecification : Type := mkFlex {
  minimum_size_rule : MinimumFlexSizeRule;
  maximum_size_rule : MaximumFlexSizeRule;
  flex_order : option Z   (* set by WithOrder *)
}.

Definition ForSizeRule (mn : MinimumFlexSizeRule) (mx : MaximumFlexSizeRule)
  : FlexSpecification := mkFlex mn mx None.

Definition WithOrder (f : FlexSpecification) (n : Z) : FlexSpecification :=
  mkFlex (minimum_size_rule f) (maximum_size_rule f) (Some n).

(** Setters of the toolkit that no claim reads back are kept on the object in
    the order of the calls. *)
Inductive Setting : Type :=
| ImageSize (width height : Z)
| ImageResource (id : ImageId)
| SolidBackground (c : SkColor)
| Margins (i : Insets)
| FlexBehavior (f : FlexSpecification)
| FontWeightBold
| HorizontalAlignLeft
| ElideTail
| SizedToPreferredSize.

Inductive ViewKind : Type :=
| KImageView
| KSeparator
| KLabel (text : string)            (* Label(text, CONTEXT_BODY_TEXT_LARGE) *)
| KView
| KMdTextButton (text : string).    (* CreateSecondaryUiBlueButton(listener, text) *)

(** A view object. [visible] is [View::visible_], true in a new view. *)
Record View : Type := mkView {
  kind : ViewKind;
  visible : bool;
  background_color : option SkColor;   (* Label::SetBackgroundColor *)
  enabled_color : option SkColor;      (* Label::SetEnabledColor *)
  separator_color : option SkColor;    (* Separator::SetColor *)
  settings : list Setting
}.

Definition new_view (k : ViewKind) : View :=
  mkView k true None None None [].

Definition with_visible (b : bool) (v : View) : View :=
  mkView (kind v) b (background_color v) (enabled_color v)
         (separator_color v) (settings v).

Definition with_background_color (c : SkColor) (v : View) : View :=
  mkView (kind v) (visible v) (Some c) (enabled_color v)
         (separator_color v) (settings v).

Definition with_enabled_color (c : SkColor) (v : View) : View :=
  mkView (kind v) (visible v) (background_color v) (Some c)
         (separator_color v) (settings v).

Definition with_separator_color (c : SkColor) (v : View) : View :=
  mkView (kind v) (visible v) (background_color v) (enabled_color v)
         (Some c) (settings v).

Definition with_setting (s : Setting) (v : View) : View :=
  mkView (kind v) (visible v) (background_color v) (enabled_color v)
         (separator_color v) (settings v ++ [s]).

(** A pointer to a view is the index of the object in the store. *)
Abbreviation ptr := nat (only parsing).

(** ** InfoBarViewSubViews *)

Inductive LayoutManager : Type := FlexLayout.

Record InfoBarViewSubViews : Type := mkSubViews {
  store : list View;                          (* the view objects allocated *)
  layout_manager : option LayoutManager;      (* SetLayoutManager *)
  children : list ptr;                        (* AddChildView, in order *)
  theme_provider : option ThemeProvider;      (* what GetThemeProvider() returns *)
  labels_ : list ptr;
  views_visible_before_checking_ : list ptr;
  views_visible_after_checking_ : list ptr;
  separator_ : option ptr                     (* None until it is assigned *)
}.

Definition set_store (h : list View) (s : InfoBarViewSubViews) :=
  mkSubViews h (layout_manager s) (children s) (theme_provider s) (labels_ s)
    (views_visible_before_checking_ s) (views_visible_after_checking_ s)
    (separator_ s).

Definition set_theme_provider (t : option ThemeProvider) (s : InfoBarViewSubViews) :=
  mkSubViews (store s) (layout_manager s) (children s) t (labels_ s)
    (views_visible_before_checking_ s) (views_visible_after_checking_ s)
    (separator_ s).

(** The methods of the class run in a state monad over the object, with
    faults. *)
Definition SV (A : Type) : Type :=
  InfoBarViewSubViews → Result (A * InfoBarViewSubViews).

#[global] Instance SV_ret : MRet SV := λ A a s, Ok (a, s).

#[global] Instance SV_bind : MBind SV := λ A B k m s,
  match m s with
  | Ok (a, s') => k a s'
  | Fault f => Fault f
  end.

(** Reading a member, and stopping with a fault. *)
Definition read {A : Type} (f : InfoBarViewSubViews → A) : SV A :=
  λ s, Ok (f s, s).

Definition fault {A : Type} (k : FaultKind) : SV A := λ _, Fault k.

(** [new T(...)]: the object is appended to the store. *)
Definition new (k : ViewKind) : SV ptr :=
  λ s, Ok (length (store s), set_store (store s ++ [new_view k]) s).

(** A call [p->setter(...)]: the object [p] points to is replaced by the
    updated one. *)
Definition update (p : ptr) (f : View → View) : SV unit :=
  λ s, match store s !! p with
       | Some v => Ok (tt, set_store (<[p := f v]> (store s)) s)
       | None => Fault invalid_pointer
       end.

Definition SetVisible (p : ptr) (b : bool) : SV unit := update p (with_visible b).
Definition SetBackgroundColor (p : ptr) (c : SkColor) : SV unit :=
  update p (with_background_color c).
Definition SetEnabledColor (p : ptr) (c : SkColor) : SV unit :=
  update p (with_enabled_color c).
Definition SetColor (p : ptr) (c : SkColor) : SV unit :=
  update p (with_separator_color c).
Definition Call (p : ptr) (x : Setting) : SV unit := update p (with_setting x).

Definition SetLayoutManager (l : LayoutManager) : SV unit :=
  λ s, Ok (tt, mkSubViews (store s) (Some l) (children s) (theme_provider s)
                 (labels_ s) (views_visible_before_checking_ s)
                 (views_visible_after_checking_ s) (separator_ s)).

Definition AddChildView (p : ptr) : SV unit :=
  λ s, Ok (tt, mkSubViews (store s) (layout_manager s) (children s ++ [p])
                 (theme_provider s) (labels_ s)
                 (views_visible_before_checking_ s)
                 (views_visible_after_checking_ s) (separator_ s)).

Definition labels_push_back (p : ptr) : SV unit :=
  λ s, Ok (tt, mkSubViews (store s) (layout_manager s) (children s)
                 (theme_provider s) (labels_ s ++ [p])
                 (views_visible_before_checking_ s)
                 (views_visible_after_checking_ s) (separator_ s)).

Definition views_visible_before_checking_push_back (p : ptr) : SV unit :=
  λ s, Ok (tt, mkSubViews (store s) (layout_manager s) (children s)
                 (theme_provider s) (labels_ s)
                 (views_visible_before_checking_ s ++ [p])
                 (views_visible_after_checking_ s) (separator_ s)).

Definition views_visible_after_checking_push_back (p : ptr) : SV unit :=
  λ s, Ok (tt, mkSubViews (store s) (layout_manager s) (children s)
                 (theme_provider s) (labels_ s)
                 (views_visible_before_checking_ s)
                 (views_visible_after_checking_ s ++ [p]) (separator_ s)).

Definition assign_separator_ (p : ptr) : SV unit :=
  λ s, Ok (tt, mkSubViews (store s) (layout_manager s) (children s)
                 (theme_provider s) (labels_ s)
                 (views_visible_before_checking_ s)
                 (views_visible_after_checking_ s) (Some p)).

(** [for (auto* x : xs) body(x)] *)
Fixpoint for_each (xs : list ptr) (body : ptr → SV unit) : SV unit :=
  match xs with
  | [] => mret tt
  | x :: xs' => body x ;; for_each xs' body
  end.

Section SubViews.
Context `{Toolkit}.

Definition kInfoBarLabelBackgroundColor : Z := COLOR_INFOBAR.
Definition kInfoBarLabelTextColor : Z := COLOR_BOOKMARK_TEXT.

(** [theme_provider ? theme_provider->GetColor(id) : gfx::kPlaceholderColor] *)
Definition GetColor (id : Z) : SV SkColor :=
  theme_provider ← read theme_provider;
  mret (match theme_provider with
        | Some tp => tp id
        | None => kPlaceholderColor
        end).

Definition UpdateChildrenVisibility (show_before_checking_views : bool) : SV unit :=
  before ← read views_visible_before_checking_;
  for_each before (λ view, SetVisible view show_before_checking_views) ;;
  after ← read views_visible_after_checking_;
  for_each after (λ view, SetVisible view (negb show_before_checking_views)).

Definition CreateLabel (text : string) : SV ptr :=
  label ← new (KLabel text);
  labels_push_back label ;;
  c ← GetColor kInfoBarLabelBackgroundColor;
  SetBackgroundColor label c ;;
  Call label HorizontalAlignLeft ;;
  c ← GetColor kInfoBarLabelTextColor;
  SetEnabledColor label c ;;
  mret label.

Definition OnThemeChanged : SV unit :=
  background_color ← GetColor kInfoBarLabelBackgroundColor;
  text_color ← GetColor kInfoBarLabelTextColor;
  labels ← read labels_;
  for_each labels
    (λ label, SetBackgroundColor label background_color ;;
              SetEnabledColor label text_color) ;;
  separator ← read separator_;
  match separator with
  | Some p => SetColor p text_color
  | None => fault invalid_pointer
  end.

Definition OnWaybackURLFetchFailed : SV unit :=
  UpdateChildrenVisibility false.

Definition InitializeChildren : SV unit :=
  image_view ← new KImageView;
  Call image_view (ImageSize 100 20) ;;
  Call image_view (Margins (mkInsets 12 20 12 20)) ;;
  Call image_view (SolidBackground (SkColorSetRGB 0xff 0x76 0x54)) ;;
  AddChildView image_view ;;

  sep ← new KSeparator;
  assign_separator_ sep ;;
  Call sep (Margins (mkInsets 12 0 12 20)) ;;
  AddChildView sep ;;

  let label_flex_rule := ForSizeRule kScaleToMinimum kPreferred in
  label ← CreateLabel
            (GetStringUTF16 IDS_BRAVE_WAYBACK_MACHINE_INFOBAR_PAGE_MISSING_TEXT);
  Call label FontWeightBold ;;
  views_visible_before_checking_push_back label ;;
  Call label (FlexBehavior (WithOrder label_flex_rule 1)) ;;
  Call label (Margins (Insets2 (GetDistanceMetric DISTANCE_TOAST_LABEL_VERTICAL) 0)) ;;
  AddChildView label ;;

  label ← CreateLabel
            (GetStringUTF16 IDS_BRAVE_WAYBACK_MACHINE_INFOBAR_ASK_ABOUT_CHECK_TEXT);
  views_visible_before_checking_push_back label ;;
  Call label (Margins (Insets2 (GetDistanceMetric DISTANCE_TOAST_LABEL_VERTICAL) 5)) ;;
  Call label ElideTail ;;
  Call label (FlexBehavior (WithOrder label_flex_rule 2)) ;;
  AddChildView label ;;

  place_holder_view ← new KView;
  views_visible_before_checking_push_back place_holder_view ;;
  Call place_holder_view (Margins (Insets2 12 0)) ;;
  Call place_holder_view
      (FlexBehavior (WithOrder (ForSizeRule kScaleToZero kUnbounded) 3)) ;;
  AddChildView place_holder_view ;;

  label ← CreateLabel
            (GetStringUTF16 IDS_BRAVE_WAYBACK_MACHINE_INFOBAR_NOT_AVAILABLE_TEXT);
  views_visible_after_checking_push_back label ;;
  Call label (FlexBehavior label_flex_rule) ;;
  Call label (Margins (Insets2 (GetDistanceMetric DISTANCE_TOAST_LABEL_VERTICAL) 0)) ;;
  AddChildView label ;;

  sad_icon ← new KImageView;
  views_visible_after_checking_push_back sad_icon ;;
  Call sad_icon (ImageResource IDR_CRASH_SAD_FAVICON) ;;
  Call sad_icon (Margins (Insets2 12 10)) ;;
  AddChildView sad_icon ;;

  button ← new (KMdTextButton
                  (GetStringUTF16 IDS_BRAVE_WAYBACK_MACHINE_CHECK_BUTTON_TEXT));
  views_visible_before_checking_push_back button ;;
  Call button (Margins (Insets2 (GetDistanceMetric DISTANCE_TOAST_CONTROL_VERTICAL) 0)) ;;
  Call button SizedToPreferredSize ;;
  AddChildView button ;;

  UpdateChildrenVisibility true.

(** The object before the body of the constructor runs: no children, empty
    vectors, [separator_] not assigned.  [tp] is what [GetThemeProvider()]
    answers while the view is built. *)
Definition unconstructed (tp : option ThemeProvider) : InfoBarViewSubViews :=
  mkSubViews [] None [] tp [] [] [] None.

(** The constructor [InfoBarViewSubViews(parent)]. *)
Definition InfoBarViewSubViews_new (tp : option ThemeProvider)
  : Result InfoBarViewSubViews :=
  match (SetLayoutManager FlexLayout ;; InitializeChildren) (unconstructed tp) with
  | Ok (_, s) => Ok s
  | Fault f => Fault f
  end.

End SubViews.

(** ** The base library's JSON, as this file calls it

    [base::Value] and [base::JSONReader] belong to the base library of the
    host; the handler is written against the three calls it makes. *)
Class JsonLibrary : Type := {
  Value : Type;
  (* base::JSONReader::Read: no value when the text is not JSON *)
  JSONReader_Read : string → option Value;
  (* Value::FindPath: a null pointer when nothing is at the dotted path *)
  FindPath : Value → string → option Value;
  (* Value::GetString: CHECK(is_string()), then the string; None is the
     failed CHECK *)
  GetString : Value → option string;
}.

(** ** BraveWaybackMachineInfoBarView *)

Definition kWaybackQueryURL : string :=
  "https://archive.org/wayback/available?url=".

(** [int]: 32 bits, two's complement. *)
Definition int (z : Z) : Z := (z + 2 ^ 31) mod 2 ^ 32 - 2 ^ 31.

Definition kMaxBodySize : Z := int (1024 * 1024).

(** [GURL(text)]: the URL the library builds from a text.  The constructor
    only names that text; parsing and canonical form are the library's. *)
Inductive GURL : Type := MakeGURL (text : string).

Record ResourceRequest : Type := mkRequest { url : GURL }.

(** The unique id of the traffic annotation. *)
Definition GetNetworkTrafficAnnotationTag : string := "wayback_machine_infobar".

(** [network::SimpleURLLoader::Create(request, annotation)] *)
Record SimpleURLLoader : Type := Create {
  resource_request : ResourceRequest;
  annotation_tag : string
}.

Inductive Referrer : Type := NoReferrer.             (* content::Referrer() *)
Inductive PageTransition : Type := PAGE_TRANSITION_LINK.

(** What the view asks of the browser, in the order of the calls. *)
Inductive HostCall : Type :=
| DownloadToString (loader : SimpleURLLoader) (max_body_size : Z)
| NavigationController_LoadURL (url : GURL) (referrer : Referrer)
    (transition : PageTransition) (extra_headers : string)
| RemoveInfoBar.

Record BraveWaybackMachineInfoBarView : Type := mkInfoBar {
  visible_url_spec : string;        (* contents_->GetVisibleURL().spec() *)
  wayback_url_fetcher_ : option SimpleURLLoader;
  sub_views_ : InfoBarViewSubViews;
  host_calls : list HostCall
}.

Definition set_sub_views (sv : InfoBarViewSubViews)
  (st : BraveWaybackMachineInfoBarView) : BraveWaybackMachineInfoBarView :=
  mkInfoBar (visible_url_spec st) (wayback_url_fetcher_ st) sv (host_calls st).

Definition call_host (c : HostCall)
  (st : BraveWaybackMachineInfoBarView) : BraveWaybackMachineInfoBarView :=
  mkInfoBar (visible_url_spec st) (wayback_url_fetcher_ st) (sub_views_ st)
            (host_calls st ++ [c]).

(** A method of [sub_views_] called from the infobar view. *)
Definition on_sub_views (m : SV unit) (st : BraveWaybackMachineInfoBarView)
  : Result BraveWaybackMachineInfoBarView :=
  match m (sub_views_ st) with
  | Ok (_, sv) => Ok (set_sub_views sv st)
  | Fault f => Fault f
  end.

(** [ui::Event]: the handler of the button does not look at it. *)
Record Event : Type := mkEvent { event_flags : Z }.

Inductive Action : Type :=
| Press (sender : ptr) (event : Event)           (* the button calls ButtonPressed *)
| Fetched (response_body : option string)        (* the loader calls OnWaybackURLFetched *)
| ThemeChanged (tp : option ThemeProvider)       (* the widget calls OnThemeChanged *)
| Navigated (spec : string).                     (* the tab shows another URL *)

Section InfoBarView.
Context `{Toolkit} `{JsonLibrary}.

(** The constructor: [contents_] shows [visible_url], no loader yet, a new
    container.  Sizing the container and adding it as a child only affect
    layout. *)
Definition BraveWaybackMachineInfoBarView_new
  (visible_url : string) (tp : option ThemeProvider)
  : Result BraveWaybackMachineInfoBarView :=
  bind_result (InfoBarViewSubViews_new tp)
    (λ sv, Ok (mkInfoBar visible_url None sv [])).

Definition FetchWaybackURL (st : BraveWaybackMachineInfoBarView)
  : BraveWaybackMachineInfoBarView :=
  let wayback_fetch_url := kWaybackQueryURL +:+ visible_url_spec st in
  let request := mkRequest (MakeGURL wayback_fetch_url) in
  let fetcher := Create request GetNetworkTrafficAnnotationTag in
  mkInfoBar (visible_url_spec st) (Some fetcher) (sub_views_ st)
            (host_calls st ++ [DownloadToString fetcher kMaxBodySize]).

(** [InfoBarViewSubViews::ButtonPressed]: [parent_->FetchWaybackURL()]. *)
Definition ButtonPressed (sender : ptr) (event : Event)
  (st : BraveWaybackMachineInfoBarView) : BraveWaybackMachineInfoBarView :=
  FetchWaybackURL st.

(** The log line of [DVLOG] aside, one call of the navigation controller. *)
Definition LoadURL (last_wayback_url : string)
  (st : BraveWaybackMachineInfoBarView) : BraveWaybackMachineInfoBarView :=
  call_host (NavigationController_LoadURL (MakeGURL last_wayback_url)
               NoReferrer PAGE_TRANSITION_LINK "") st.

Definition OnWaybackURLFetched (response_body : option string)
  (st : BraveWaybackMachineInfoBarView)
  : Result BraveWaybackMachineInfoBarView :=
  match response_body with
  | None => on_sub_views OnWaybackURLFetchFailed st
  | Some wayback_response_json =>
    let result := JSONReader_Read wayback_response_json in
    match result with
    | None => on_sub_views OnWaybackURLFetchFailed st
    | Some result =>
      match FindPath result "archived_snapshots.closest.url" with
      | None => on_sub_views OnWaybackURLFetchFailed st
      | Some _ =>
        match FindPath result "archived_snapshots.closest.url" with
        | None => Fault invalid_pointer
        | Some found =>
          match GetString found with
          | None => Fault CHECK_failed
          | Some last_wayback_url =>
            Ok (call_host RemoveInfoBar (LoadURL last_wayback_url st))
          end
        end
      end
    end
  end.

Definition step (a : Action) (st : BraveWaybackMachineInfoBarView)
  : Result BraveWaybackMachineInfoBarView :=
  match a with
  | Press sender event => Ok (ButtonPressed sender event st)
  | Fetched response_body => OnWaybackURLFetched response_body st
  | ThemeChanged tp =>
      on_sub_views OnThemeChanged
        (set_sub_views (set_theme_provider tp (sub_views_ st)) st)
  | Navigated spec =>
      Ok (mkInfoBar spec (wayback_url_fetcher_ st) (sub_views_ st)
                    (host_calls st))
  end.

(** The states of a view: the constructed one and those the calls above
    lead to. *)
Inductive reachable : BraveWaybackMachineInfoBarView → Prop :=
| reachable_new visible_url tp st :
    BraveWaybackMachineInfoBarView_new visible_url tp = Ok st →
    reachable st
| reachable_step a st st' :
    reachable st → step a st = Ok st' → reachable st'.

End InfoBarView.

(** ** What is seen of a state *)

(** [View::GetVisible] of the object behind a pointer. *)
Definition GetVisible (s : InfoBarViewSubViews) (p : ptr) : option bool :=
  visible <$> store s !! p.

Definition all_visible_is (s : InfoBarViewSubViews) (ps : list ptr) (b : bool) : Prop :=
  Forall (λ p, GetVisible s p = Some b) ps.

(** The offer to check is shown, the failure controls are hidden. *)
Definition shows_before_checking (s : InfoBarViewSubViews) : Prop :=
  all_visible_is s (views_visible_before_checking_ s) true ∧
  all_visible_is s (views_visible_after_checking_ s) false.

(** The failure controls are shown, the offer to check is hidden. *)
Definition shows_after_checking (s : InfoBarViewSubViews) : Prop :=
  all_visible_is s (views_visible_before_checking_ s) false ∧
  all_visible_is s (views_visible_after_checking_ s) true.

(** The pointers a container keeps name objects of its store, and no view is
    in both visibility sets. *)
Record well_formed (s : InfoBarViewSubViews) : Prop := mk_well_formed {
  wf_before : Forall (λ p, (p < length (store s))%nat) (views_visible_before_checking_ s);
  wf_after : Forall (λ p, (p < length (store s))%nat) (views_visible_after_checking_ s);
  wf_labels : Forall (λ p, (p < length (store s))%nat) (labels_ s);
  wf_separator : ∃ p, separator_ s = Some p ∧ (p < length (store s))%nat;
  wf_disjoint : ∀ p, p ∈ views_visible_before_checking_ s →
                     p ∉ views_visible_after_checking_ s
}.

(** The requests started so far. *)
Definition is_request (c : HostCall) : bool :=
  match c with
  | DownloadToString _ _ => true
  | _ => false
  end.

Definition requests (cs : list HostCall) : list HostCall :=
  List.filter is_request cs.

(** ** An instance of the JSON interface

    A model of [base::Value] with the documented behaviour of the three calls,
    used to run the handler on concrete response bodies.  The general
    theorems are stated for every instance of [JsonLibrary]. *)

Inductive JsonValue : Type :=
| NONE
| BOOLEAN (b : bool)
| INTEGER (i : Z)
| DOUBLE (bits : Z)                          (* the IEEE 754 binary64 pattern *)
| STRING (s : string)
| BINARY (blob : list Byte.byte)
| DICTIONARY (d : list (string * JsonValue)) (* keys are unique *)
| LIST (l : list JsonValue).

Fixpoint FindKey (d : list (string * JsonValue)) (key : string) : option JsonValue :=
  match d with
  | [] => None
  | (k, v) :: d' => if String.eqb k key then Some v else FindKey d' key
  end.

(** [SetKey]: the value of an existing key is replaced. *)
Fixpoint SetKey (d : list (string * JsonValue)) (key : string) (v : JsonValue)
  : list (string * JsonValue) :=
  match d with
  | [] => [(key, v)]
  | (k, v') :: d' =>
      if String.eqb k key then (k, v) :: d' else (k, v') :: SetKey d' key v
  end.

(** The components of a dotted path, as the path splitter of the library
    yields them: there is a next component while the position is inside the
    text. *)
Fixpoint split_from (component : string) (path : string) : list string :=
  match path with
  | EmptyString => [component]
  | String c rest =>
      if Ascii.eqb c "."%char
      then component :: match rest with
                        | EmptyString => []
                        | _ => split_from EmptyString rest
                        end
      else split_from (component +:+ String c EmptyString) rest
  end.

Definition split_path (path : string) : list string :=
  match path with
  | EmptyString => []
  | _ => split_from EmptyString path
  end.

(** Values other than dictionaries have no children; the type of the value
    found last is not looked at. *)
Fixpoint find_components (cur : JsonValue) (components : list string)
  : option JsonValue :=
  match components with
  | [] => Some cur
  | key :: rest =>
      match cur with
      | DICTIONARY d =>
          match FindKey d key with
          | Some v => find_components v rest
          | None => None
          end
      | _ => None
      end
  end.

Definition JsonValue_FindPath (v : JsonValue) (path : string) : option JsonValue :=
  find_components v (split_path path).

Definition JsonValue_GetString (v : JsonValue) : option string :=
  match v with
  | STRING s => Some s
  | _ => None
  end.

(** A reader for JSON texts made of objects, arrays, strings with the
    one-letter escapes, integers and the three literals. *)
Definition dquote : ascii := "034"%char.
Definition backslash : ascii := "092"%char.

Definition is_whitespace (c : ascii) : bool :=
  Ascii.eqb c " "%char || Ascii.eqb c "009"%char ||
  Ascii.eqb c "010"%char || Ascii.eqb c "013"%char.

Fixpoint skip_whitespace (s : string) : string :=
  match s with
  | String c rest => if is_whitespace c then skip_whitespace rest else s
  | EmptyString => s
  end.

Definition digit (c : ascii) : option Z :=
  let n := Z.of_nat (nat_of_ascii c) in
  if (48 <=? n) && (n <=? 57) then Some (n - 48) else None.

Fixpoint read_digits (acc : Z) (s : string) : Z * string :=
  match s with
  | String c rest =>
      match digit c with
      | Some d => read_digits (10 * acc + d) rest
      | None => (acc, s)
      end
  | EmptyString => (acc, s)
  end.

Definition ends_integer (s : string) : bool :=
  match s with
  | String c _ =>
      negb (Ascii.eqb c "."%char || Ascii.eqb c "e"%char || Ascii.eqb c "E"%char)
  | EmptyString => true
  end.

Definition read_natural (s : string) : option (Z * string) :=
  match s with
  | String c rest =>
      match digit c with
      | Some 0 =>
          match rest with
          | String c' _ =>
              match digit c' with
              | Some _ => None
              | None => if ends_integer rest then Some (0, rest) else None
              end
          | EmptyString => Some (0, rest)
          end
      | Some d =>
          let '(n, rest') := read_digits d rest in
          if ends_integer rest' then Some (n, rest') else None
      | None => None
      end
  | EmptyString => None
  end.

Definition unescape (c : ascii) : option ascii :=
  if Ascii.eqb c dquote then Some dquote
  else if Ascii.eqb c backslash then Some backslash
  else if Ascii.eqb c "/"%char then Some "/"%char
  else if Ascii.eqb c "b"%char then Some "008"%char
  else if Ascii.eqb c "f"%char then Some "012"%char
  else if Ascii.eqb c "n"%char then Some "010"%char
  else if Ascii.eqb c "r"%char then Some "013"%char
  else if Ascii.eqb c "t"%char then Some "009"%char
  else None.

(** The text after an opening quote, up to the closing one. *)
Fixpoint read_string (s : string) : option (string * string) :=
  match s with
  | EmptyString => None
  | String c rest =>
      if Ascii.eqb c dquote then Some (EmptyString, rest)
      else if Ascii.eqb c backslash then
        match rest with
        | String e rest' =>
            match unescape e, read_string rest' with
            | Some c', Some (t, rest'') => Some (String c' t, rest'')
            | _, _ => None
            end
        | EmptyString => None
        end
      else
        match read_string rest with
        | Some (t, rest') => Some (String c t, rest')
        | None => None
        end
  end.

Definition read_literal (word : string) (v : JsonValue) (s : string)
  : option (JsonValue * string) :=
  if String.prefix word s
  then Some (v, String.substring (String.length word)
                  (String.length s - String.length word) s)
  else None.

Fixpoint read_value (fuel : nat) (s : string) : option (JsonValue * string) :=
  match fuel with
  | O => None
  | S fuel' =>
      match skip_whitespace s with
      | EmptyString => None
      | String c rest =>
          if Ascii.eqb c "{"%char then
            match skip_whitespace rest with
            | String c' rest' =>
                if Ascii.eqb c' "}"%char then Some (DICTIONARY [], rest')
                else read_members fuel' [] (String c' rest')
            | EmptyString => None
            end
          else if Ascii.eqb c "["%char then
            match skip_whitespace rest with
            | String c' rest' =>
                if Ascii.eqb c' "]"%char then Some (LIST [], rest')
                else read_elements fuel' [] (String c' rest')
            | EmptyString => None
            end
          else if Ascii.eqb c dquote then
            match read_string rest with
            | Some (t, rest') => Some (STRING t, rest')
            | None => None
            end
          else if Ascii.eqb c "-"%char then
            match read_natural rest with
            | Some (n, rest') => Some (INTEGER (- n), rest')
            | None => None
            end
          else if bool_decide (is_Some (digit c)) then
            match read_natural (String c rest) with
            | Some (n, rest') => Some (INTEGER n, rest')
            | None => None
            end
          else
            match read_literal "true" (BOOLEAN true) (String c rest) with
            | Some r => Some r
            | None =>
              match read_literal "false" (BOOLEAN false) (String c rest) with
              | Some r => Some r
              | None => read_literal "null" NONE (String c rest)
              end
            end
      end
  end
with read_members (fuel : nat) (d : list (string * JsonValue)) (s : string)
  : option (JsonValue * string) :=
  match fuel with
  | O => None
  | S fuel' =>
      match skip_whitespace s with
      | String c rest =>
          if Ascii.eqb c dquote then
            match read_string rest with
            | Some (key, rest') =>
                match skip_whitespace rest' with
                | String c' rest'' =>
                    if Ascii.eqb c' ":"%char then
                      match read_value fuel' rest'' with
                      | Some (v, rest3) =>
                          match skip_whitespace rest3 with
                          | String c3 rest4 =>
                              if Ascii.eqb c3 ","%char
                              then read_members fuel' (SetKey d key v) rest4
                              else if Ascii.eqb c3 "}"%char
                              then Some (DICTIONARY (SetKey d key v), rest4)
                              else None
                          | EmptyString => None
                          end
                      | None => None
                      end
                    else None
                | EmptyString => None
                end
            | None => None
            end
          else None
      | EmptyString => None
      end
  end
with read_elements (fuel : nat) (l : list JsonValue) (s : string)
  : option (JsonValue * string) :=
  match fuel with
  | O => None
  | S fuel' =>
      match read_value fuel' s with
      | Some (v, rest) =>
          match skip_whitespace rest with
          | String c rest' =>
              if Ascii.eqb c ","%char then read_elements fuel' (l ++ [v]) rest'
              else if Ascii.eqb c "]"%char then Some (LIST (l ++ [v]), rest')
              else None
          | EmptyString => None
          end
      | None => None
      end
  end.

(** The whole text is one value, with white space around it. *)
Definition JsonValue_Read (text : string) : option JsonValue :=
  match read_value (2 * String.length text + 2) text with
  | Some (v, rest) =>
      match skip_whitespace rest with
      | EmptyString => Some v
      | String _ _ => None
      end
  | None => None
  end.

Definition base_json : JsonLibrary :=
  Build_JsonLibrary JsonValue JsonValue_Read JsonValue_FindPath JsonValue_GetString.

(** An instance of the toolkit's constants: the placeholder colour is opaque
    red, the two colour ids are distinct, every string resource is its name
    in short. *)
Definition sample_toolkit : Toolkit :=
  Build_Toolkit 0xffff0000 12 34
    (λ id, match id with
           | IDS_BRAVE_WAYBACK_MACHINE_INFOBAR_PAGE_MISSING_TEXT => "Page missing"
           | IDS_BRAVE_WAYBACK_MACHINE_INFOBAR_ASK_ABOUT_CHECK_TEXT => "Check for a saved version?"
           | IDS_BRAVE_WAYBACK_MACHINE_INFOBAR_NOT_AVAILABLE_TEXT => "Not available"
           | IDS_BRAVE_WAYBACK_MACHINE_CHECK_BUTTON_TEXT => "Check"
           end)
    (λ m, match m with
          | DISTANCE_TOAST_LABEL_VERTICAL => 12
          | DISTANCE_TOAST_CONTROL_VERTICAL => 8
          end).

(** Response bodies.  [quoted s] is [s] between double quotes. *)
Definition quoted (s : string) : string :=
  String dquote (s +:+ String dquote EmptyString).

Definition snapshot_body (closest_url : string) : string :=
  "{" +:+ quoted "archived_snapshots" +:+ ":{" +:+ quoted "closest" +:+ ":{" +:+
  quoted "url" +:+ ":" +:+ closest_url +:+ "}}}".

(** A snapshot was found. *)
Definition snapshot_url : string :=
  "http://web.archive.org/web/2019/http://example.com/".

Definition body_with_snapshot : string := snapshot_body (quoted snapshot_url).

(** The value of [snapshot_body text] when [text] is read as [v]. *)
Definition snapshot_value (v : JsonValue) : JsonValue :=
  DICTIONARY
    [("archived_snapshots", DICTIONARY [("closest", DICTIONARY [("url", v)])])].

(** No snapshot is known. *)
Definition body_without_snapshot : string :=
  "{" +:+ quoted "archived_snapshots" +:+ ":{}}".

(** The field is there, but holds a number. *)
Definition body_with_number : string := snapshot_body "5".

Definition sample_theme : ThemeProvider := λ id, 0xff000000 + id.

(** A constructed infobar view, on a page that is gone. *)
Definition sample_infobar : BraveWaybackMachineInfoBarView :=
  Eval vm_compute in
  match @BraveWaybackMachineInfoBarView_new sample_toolkit
          "http://example.com/gone" None with
  | Ok st => st
  | Fault _ => mkInfoBar EmptyString None (unconstructed None) []
  end.

(** ** Vocabulary of the properties *)

(** Two containers differ in nothing but the visibility of their views. *)
Definition only_visibility_differs (s s' : InfoBarViewSubViews) : Prop :=
  s' = set_store (store s') s ∧
  length (store s') = length (store s) ∧
  ∀ p v', store s' !! p = Some v' →
          ∃ v, store s !! p = Some v ∧ v' = with_visible (visible v') v.

Section Words.
Context `{Toolkit} `{JsonLibrary}.

(** The fetch did not yield a snapshot: no body, a body that is not JSON,
    or JSON without the path. *)
Definition fetch_failed (response_body : option string) : Prop :=
  response_body = None ∨
  (∃ body, response_body = Some body ∧ JSONReader_Read body = None) ∨
  (∃ body result, response_body = Some body ∧
                  JSONReader_Read body = Some result ∧
                  FindPath result "archived_snapshots.closest.url" = None).

(** The run [r] from [st] is the switch to the failure controls and nothing
    else. *)
Definition switched_to_failure (st : BraveWaybackMachineInfoBarView)
  (r : Result BraveWaybackMachineInfoBarView) : Prop :=
  ∃ sv', OnWaybackURLFetchFailed (sub_views_ st) = Ok (tt, sv') ∧
         r = Ok (set_sub_views sv' st).

(** What a response holds at the one path the handler looks up. *)
Inductive Inspection : Type :=
| BodyAbsent
| NotJson
| FieldAbsent
| FieldPresent (found : Value).

Definition inspect (response_body : option string) : Inspection :=
  match response_body with
  | None => BodyAbsent
  | Some body =>
      match JSONReader_Read body with
      | None => NotJson
      | Some result =>
          match FindPath result "archived_snapshots.closest.url" with
          | None => FieldAbsent
          | Some found => FieldPresent found
          end
      end
  end.

End Words.

(** The two sets have opposite visibility. *)
Definition opposite_visibility (s : InfoBarViewSubViews) : Prop :=
  ∃ b, all_visible_is s (views_visible_before_checking_ s) b ∧
       all_visible_is s (views_visible_after_checking_ s) (negb b).

(** A view of each set is visible at once. *)
Definition both_visible (s : InfoBarViewSubViews) : Prop :=
  ∃ p q, p ∈ views_visible_before_checking_ s ∧
         q ∈ views_visible_after_checking_ s ∧
         GetVisible s p = Some true ∧ GetVisible s q = Some true.

(** The calls of a successful completion. *)
Definition navigation_and_removal (last_wayback_url : string) : list HostCall :=
  [NavigationController_LoadURL (MakeGURL last_wayback_url) NoReferrer
     PAGE_TRANSITION_LINK EmptyString;
   RemoveInfoBar].

(** ** More sample inputs *)

(** The field is there, but holds [null]. *)
Definition body_with_null : string := snapshot_body "null".

(** The same snapshot as in [body_with_snapshot] among other members. *)
Definition body_with_snapshot_and_more : string :=
  "{" +:+ quoted "url" +:+ ":" +:+ quoted "http://example.com/gone" +:+ "," +:+
  quoted "archived_snapshots" +:+ ": {" +:+ quoted "closest" +:+ ": {" +:+
  quoted "status" +:+ ":" +:+ quoted "200" +:+ "," +:+
  quoted "available" +:+ ":true," +:+
  quoted "url" +:+ ":" +:+ quoted snapshot_url +:+ "," +:+
  quoted "timestamp" +:+ ":" +:+ quoted "20190101000000" +:+ "} } }".

(** The sample view after a fetch without a body, and after a press of the
    button. *)
Definition sample_infobar_failed : BraveWaybackMachineInfoBarView :=
  Eval vm_compute in
  match @step sample_toolkit base_json (Fetched None) sample_infobar with
  | Ok st => st
  | Fault _ => sample_infobar
  end.

Definition sample_infobar_pressed : BraveWaybackMachineInfoBarView :=
  @ButtonPressed (7%nat) (mkEvent 0) sample_infobar.

(** ** The rest of the file and further vocabulary *)

Section CreateInfoBar.
Context `{Toolkit}.

(** [BraveWaybackMachineInfoBarDelegate::CreateInfoBar(delegate, contents)]:
    a new infobar view for the tab; the delegate goes to the base class. *)
Definition CreateInfoBar (visible_url : string) (tp : option ThemeProvider)
  : Result BraveWaybackMachineInfoBarView :=
  BraveWaybackMachineInfoBarView_new visible_url tp.

(** What [GetColor(id)] answers in a container. *)
Definition resolved_color (s : InfoBarViewSubViews) (id : Z) : SkColor :=
  match theme_provider s with
  | Some tp => tp id
  | None => kPlaceholderColor
  end.

End CreateInfoBar.

(** The store after a loop [for (auto* x : ps) x->setter(...)]: the objects
    that [ps] names are updated by [f], the others are kept. *)
Definition apply_on (ps : list ptr) (f : View → View) (h : list View) : list View :=
  imap (λ i v, if decide (i ∈ ps) then f v else v) h.

(** The loader of the request started last, if any. *)
Definition last_loader (cs : list HostCall) : option SimpleURLLoader :=
  fold_left (λ acc c, match c with
                      | DownloadToString loader _ => Some loader
                      | _ => acc
                      end) cs None.

(** Every navigation in a log is followed at once by the removal of the
    infobar, and no removal stands without its navigation. *)
Fixpoint navigations_paired (cs : list HostCall) : bool :=
  match cs with
  | [] => true
  | DownloadToString _ _ :: cs' => navigations_paired cs'
  | NavigationController_LoadURL _ _ _ _ :: cs' =>
      match cs' with
      | RemoveInfoBar :: cs'' => navigations_paired cs''
      | _ => false
      end
  | RemoveInfoBar :: _ => false
  end.

(** The kinds and the fixed settings of the eight views of a container, in
    the order of their creation. *)
Definition constructed_kinds `{Toolkit} : list ViewKind :=
  [KImageView; KSeparator;
   KLabel (GetStringUTF16 IDS_BRAVE_WAYBACK_MACHINE_INFOBAR_PAGE_MISSING_TEXT);
   KLabel (GetStringUTF16 IDS_BRAVE_WAYBACK_MACHINE_INFOBAR_ASK_ABOUT_CHECK_TEXT);
   KView;
   KLabel (GetStringUTF16 IDS_BRAVE_WAYBACK_MACHINE_INFOBAR_NOT_AVAILABLE_TEXT);
   KImageView;
   KMdTextButton (GetStringUTF16 IDS_BRAVE_WAYBACK_MACHINE_CHECK_BUTTON_TEXT)].

(** A theme provider with a dark infobar, and the sample view after it was
    attached. *)
Definition dark_theme : ThemeProvider :=
  λ id, if Z.eqb id 12 then 0xff202124 else 0xffe8eaed.

Definition sample_infobar_themed : BraveWaybackMachineInfoBarView :=
  Eval vm_compute in
  match @step sample_toolkit base_json (ThemeChanged (Some dark_theme))
          sample_infobar with
  | Ok st => st
  | Fault _ => sample_infobar
  end.

Section Shape.
Context `{Toolkit}.

(** The views of a container and its vectors are those the constructor
    made. *)
Record constructed_shape (s : InfoBarViewSubViews) : Prop := mk_shape {
  shape_kinds : kind <$> store s = constructed_kinds;
  shape_children : children s = [0; 1; 2; 3; 4; 5; 6; 7]%nat;
  shape_labels : labels_ s = [2; 3; 5]%nat;
  shape_before : views_visible_before_checking_ s = [2; 3; 4; 7]%nat;
  shape_after : views_visible_after_checking_ s = [5; 6]%nat;
  shape_separator : separator_ s = Some 1%nat;
  shape_layout : layout_manager s = Some FlexLayout
}.

(** Every label has the two colours that [GetColor] answers now. *)
Definition labels_have_theme_colors (s : InfoBarViewSubViews) : Prop :=
  Forall (λ p, background_color <$> store s !! p
                 = Some (Some (resolved_color s kInfoBarLabelBackgroundColor)) ∧
               enabled_color <$> store s !! p
                 = Some (Some (resolved_color s kInfoBarLabelTextColor)))
         (labels_ s).

End Shape.

(** The calls of the browser into a view, one after the other. *)
Definition is_press (a : Action) : bool :=
  match a with
  | Press _ _ => true
  | _ => false
  end.

Section Runs.
Context `{Toolkit} `{JsonLibrary}.

Fixpoint run (actions : list Action) (st : BraveWaybackMachineInfoBarView)
  : Result BraveWaybackMachineInfoBarView :=
  match actions with
  | [] => Ok st
  | a :: rest => bind_result (step a st) (run rest)
  end.

End Runs.

(** The field is there, but holds [true]. *)
Definition body_with_flag : string := snapshot_body "true".

Definition is_theme_change (a : Action) : bool :=
  match a with
  | ThemeChanged _ => true
  | _ => false
  end.

(** The sample view after a press and the completion that found a
    snapshot. *)
Definition sample_infobar_navigated : BraveWaybackMachineInfoBarView :=
  Eval vm_compute in
  match @run sample_toolkit base_json
          [Press 7%nat (mkEvent 0); Fetched (Some body_with_snapshot)]
          sample_infobar with
  | Ok st => st
  | Fault _ => sample_infobar
  end.

(** The sample view after a press, a change of theme and a fetch without a
    body. *)
Definition sample_infobar_themed_failed : BraveWaybackMachineInfoBarView :=
  Eval vm_compute in
  match @run sample_toolkit base_json
          [Press 7%nat (mkEvent 0); ThemeChanged (Some dark_theme); Fetched None]
          sample_infobar with
  | Ok st => st
  | Fault _ => sample_infobar
  end.

(** * Proofs *)

(** ** The monad *)

Lemma bind_Ok {A B : Type} (m : SV A) (k : A → SV B) s a s' :
  m s = Ok (a, s') → (m ≫= k) s = k a s'.
Proof. intros Hm. unfold mbind, SV_bind. now rewrite Hm. Qed.

Lemma bind_Fault {A B : Type} (m : SV A) (k : A → SV B) s f :
  m s = Fault f → (m ≫= k) s = Fault f.
Proof. intros Hm. unfold mbind, SV_bind. now rewrite Hm. Qed.

Lemma set_store_id s : set_store (store s) s = s.
Proof. now destruct s. Qed.

Lemma set_store_set_store h h' s : set_store h (set_store h' s) = set_store h s.
Proof. reflexivity. Qed.

Lemma update_Ok p f s v :
  store s !! p = Some v →
  update p f s = Ok (tt, set_store (<[p := f v]> (store s)) s).
Proof. intros Hp. unfold update. now rewrite Hp. Qed.

(** Two setters on one object are one update. *)
Lemma update_update p f g s :
  (update p f ;; update p g) s = update p (g ∘ f) s.
Proof.
  destruct (store s !! p) as [v|] eqn:Hp.
  - rewrite (bind_Ok _ _ _ _ _ (update_Ok p f s v Hp)).
    assert (Hlt : (p < length (store s))%nat) by (apply lookup_lt_is_Some; eauto).
    rewrite (update_Ok p g _ (f v)) by (simpl; now apply list_lookup_insert_eq).
    rewrite (update_Ok p (g ∘ f) s v Hp). simpl.
    now rewrite list_insert_insert_eq.
  - unfold update at 3. rewrite Hp. apply bind_Fault. unfold update. now rewrite Hp.
Qed.

Lemma for_each_ext ps (body body' : ptr → SV unit) s :
  (∀ p s, body p s = body' p s) →
  for_each ps body s = for_each ps body' s.
Proof.
  intros Hext. revert s. induction ps as [|a ps IH]; intros s; [reflexivity|].
  simpl. unfold mbind, SV_bind. rewrite Hext.
  destruct (body' a s) as [[[] s1]|f]; [apply IH | reflexivity].
Qed.

(** A loop that applies one idempotent setter to the objects of a vector of
    valid pointers: it runs to its end, the objects named are updated and the
    others are left alone. *)
Lemma for_each_update ps (f : View → View) s :
  (∀ v, f (f v) = f v) →
  Forall (λ p, (p < length (store s))%nat) ps →
  ∃ h, for_each ps (λ p, update p f) s = Ok (tt, set_store h s) ∧
       length h = length (store s) ∧
       ∀ p, h !! p = if decide (p ∈ ps) then f <$> store s !! p
                     else store s !! p.
Proof.
  intros Hidem. revert s. induction ps as [|a ps IH]; intros s Hps.
  - exists (store s). rewrite set_store_id.
    split; [reflexivity | split; [reflexivity |]].
    intros p. destruct (decide (p ∈ [])) as [Hin|]; [inversion Hin | reflexivity].
  - inversion Hps as [|? ? Ha Hps']; subst.
    destruct (lookup_lt_is_Some_2 _ _ Ha) as [v Hv].
    destruct (IH (set_store (<[a := f v]> (store s)) s)) as (h & Hrun & Hlen & Hh).
    { simpl. rewrite length_insert. exact Hps'. }
    exists h. split; [|split].
    + simpl. rewrite (bind_Ok _ _ _ _ _ (update_Ok a f s v Hv)). exact Hrun.
    + rewrite Hlen. simpl. apply length_insert.
    + intros p. rewrite Hh. simpl.
      destruct (decide (p = a)) as [->|Hne].
      * rewrite list_lookup_insert_eq by exact Ha. rewrite Hv. simpl.
        rewrite Hidem.
        destruct (decide (a ∈ ps)), (decide (a ∈ a :: ps)) as [|Hn];
          try reflexivity; exfalso; apply Hn; constructor.
      * rewrite list_lookup_insert_ne by congruence.
        destruct (decide (p ∈ ps)) as [Hin|Hnin], (decide (p ∈ a :: ps)) as [Hin'|Hnin'];
          try reflexivity.
        -- exfalso. apply Hnin'. now constructor.
        -- exfalso. apply Hnin. inversion Hin'; subst; [congruence | assumption].
Qed.

Lemma bind_read {A B : Type} (f : InfoBarViewSubViews → A) (k : A → SV B) s :
  (read f ≫= k) s = k (f s) s.
Proof. reflexivity. Qed.

(** ** Well-formed containers *)

Lemma well_formed_set_store h s :
  length h = length (store s) → well_formed s → well_formed (set_store h s).
Proof.
  intros Hlen [Hb Ha Hl Hs Hd].
  constructor; simpl; rewrite ?Hlen; assumption.
Qed.

Lemma with_visible_visible v : with_visible (visible v) v = v.
Proof. now destruct v. Qed.

Lemma with_visible_twice b c v : with_visible b (with_visible c v) = with_visible b v.
Proof. reflexivity. Qed.

Lemma GetVisible_set_store h s p : GetVisible (set_store h s) p = visible <$> h !! p.
Proof. reflexivity. Qed.

Section SubViewsProofs.
Context `{Toolkit}.

(** [UpdateChildrenVisibility(b)] on a well-formed container runs to its
    end, gives every view of the first set the visibility [b] and every
    view of the second set the opposite one, and changes nothing else. *)
Lemma UpdateChildrenVisibility_spec b s :
  well_formed s →
  ∃ s', UpdateChildrenVisibility b s = Ok (tt, s') ∧
        well_formed s' ∧
        only_visibility_differs s s' ∧
        all_visible_is s' (views_visible_before_checking_ s') b ∧
        all_visible_is s' (views_visible_after_checking_ s') (negb b).
Proof.
  intros Hwf. destruct Hwf as [Hb Ha Hl Hs Hd].
  destruct (for_each_update (views_visible_before_checking_ s)
              (with_visible b) s (with_visible_twice b b) Hb)
    as (h1 & Hrun1 & Hlen1 & Hh1).
  destruct (for_each_update (views_visible_after_checking_ s)
              (with_visible (negb b)) (set_store h1 s)
              (with_visible_twice _ _))
    as (h2 & Hrun2 & Hlen2 & Hh2).
  { simpl. rewrite Hlen1. exact Ha. }
  simpl in Hlen2, Hh2. rewrite set_store_set_store in Hrun2.
  exists (set_store h2 s).
  assert (Hbefore : ∀ p, p ∈ views_visible_before_checking_ s →
            ∃ v, store s !! p = Some v ∧ h2 !! p = Some (with_visible b v)).
  { intros p Hp.
    destruct (lookup_lt_is_Some_2 (store s) p) as [v Hv].
    { rewrite Forall_forall in Hb. now apply Hb. }
    exists v. split; [exact Hv|].
    rewrite Hh2, Hh1. rewrite decide_False by now apply Hd.
    rewrite decide_True by exact Hp. now rewrite Hv. }
  assert (Hafter : ∀ p, p ∈ views_visible_after_checking_ s →
            ∃ v, h1 !! p = Some v ∧ h2 !! p = Some (with_visible (negb b) v)).
  { intros p Hp.
    destruct (lookup_lt_is_Some_2 h1 p) as [v Hv].
    { rewrite Hlen1. rewrite Forall_forall in Ha. now apply Ha. }
    exists v. split; [exact Hv|].
    rewrite Hh2. rewrite decide_True by exact Hp. now rewrite Hv. }
  split; [|split; [|split; [|split]]].
  - unfold UpdateChildrenVisibility. rewrite bind_read.
    rewrite (bind_Ok _ _ _ _ _ Hrun1). rewrite bind_read. exact Hrun2.
  - apply well_formed_set_store; [congruence | now constructor].
  - split; [reflexivity | split; [simpl; congruence |]].
    simpl. intros p v' Hp. rewrite Hh2, Hh1 in Hp.
    destruct (store s !! p) as [v|] eqn:Hv.
    + exists v. split; [reflexivity|].
      repeat case_decide; simpl in Hp; injection Hp as <-; simpl;
        rewrite ?with_visible_twice, ?with_visible_visible; reflexivity.
    + repeat case_decide; simpl in Hp; discriminate.
  - apply Forall_forall. intros p Hp. simpl in Hp.
    destruct (Hbefore p Hp) as (v & _ & Hv).
    rewrite GetVisible_set_store, Hv. reflexivity.
  - apply Forall_forall. intros p Hp. simpl in Hp.
    destruct (Hafter p Hp) as (v & _ & Hv).
    rewrite GetVisible_set_store, Hv. reflexivity.
Qed.

Lemma GetColor_Ok id s :
  GetColor id s = Ok (match theme_provider s with
                      | Some tp => tp id
                      | None => kPlaceholderColor
                      end, s).
Proof. reflexivity. Qed.

(** [OnThemeChanged] on a well-formed container runs to its end: every
    label gets the two colours [GetColor] answers, the separator gets the
    text colour, and no visibility changes. *)
Lemma OnThemeChanged_spec s :
  well_formed s →
  ∃ s' background_color_ text_color,
    GetColor kInfoBarLabelBackgroundColor s = Ok (background_color_, s) ∧
    GetColor kInfoBarLabelTextColor s = Ok (text_color, s) ∧
    OnThemeChanged s = Ok (tt, s') ∧
    well_formed s' ∧
    s' = set_store (store s') s ∧
    (∀ p, GetVisible s' p = GetVisible s p) ∧
    (∀ p, p ∈ labels_ s →
          ∃ v, store s' !! p = Some v ∧
               background_color v = Some background_color_ ∧
               enabled_color v = Some text_color) ∧
    (∃ p v, separator_ s = Some p ∧ store s' !! p = Some v ∧
            separator_color v = Some text_color).
Proof.
  intros Hwf. pose proof Hwf as [Hb Ha Hl (sep & Hsep & Hseplt) Hd].
  set (bg := match theme_provider s with
             | Some tp => tp kInfoBarLabelBackgroundColor
             | None => kPlaceholderColor
             end).
  set (tc := match theme_provider s with
             | Some tp => tp kInfoBarLabelTextColor
             | None => kPlaceholderColor
             end).
  set (paint := with_enabled_color tc ∘ with_background_color bg).
  destruct (for_each_update (labels_ s) paint s) as (h1 & Hrun1 & Hlen1 & Hh1);
    [reflexivity | exact Hl |].
  destruct (lookup_lt_is_Some_2 h1 sep) as [v1 Hv1]; [now rewrite Hlen1|].
  exists (set_store (<[sep := with_separator_color tc v1]> h1) s), bg, tc.
  split; [reflexivity | split; [reflexivity |]].
  assert (Hlen2 : length (<[sep := with_separator_color tc v1]> h1)
                  = length (store s)) by now rewrite length_insert.
  split; [|split; [|split; [|split; [|split]]]].
  - unfold OnThemeChanged.
    rewrite (bind_Ok _ _ _ _ _ (GetColor_Ok _ s)).
    rewrite (bind_Ok _ _ _ _ _ (GetColor_Ok _ s)).
    rewrite bind_read. fold bg tc.
    erewrite bind_Ok.
    2:{ erewrite for_each_ext; [exact Hrun1|]. intros p s0. apply update_update. }
    rewrite bind_read. simpl. rewrite Hsep.
    unfold SetColor. now rewrite (update_Ok _ _ _ v1) by exact Hv1.
  - now apply well_formed_set_store.
  - reflexivity.
  - intros p. rewrite GetVisible_set_store. unfold GetVisible.
    destruct (decide (sep = p)) as [->|Hne].
    + rewrite list_lookup_insert_eq by now rewrite Hlen1.
      specialize (Hh1 p). rewrite Hv1 in Hh1.
      revert Hh1. case_decide; destruct (store s !! p) as [v|]; simpl;
        intros Hh1; try discriminate; injection Hh1 as ->; reflexivity.
    + rewrite list_lookup_insert_ne by exact Hne. rewrite Hh1.
      case_decide; destruct (store s !! p) as [v|]; reflexivity.
  - intros p Hp. simpl.
    destruct (lookup_lt_is_Some_2 (store s) p) as [v Hv].
    { rewrite Forall_forall in Hl. now apply Hl. }
    assert (Hp1 : h1 !! p = Some (paint v)).
    { rewrite Hh1. rewrite decide_True by exact Hp. now rewrite Hv. }
    destruct (decide (sep = p)) as [->|Hne].
    + rewrite list_lookup_insert_eq by now rewrite Hlen1.
      rewrite Hp1 in Hv1. injection Hv1 as <-.
      eexists. split; [reflexivity|]. split; reflexivity.
    + rewrite list_lookup_insert_ne by exact Hne.
      exists (paint v). split; [exact Hp1|]. split; reflexivity.
  - exists sep, (with_separator_color tc v1). split; [exact Hsep|].
    split; [|reflexivity]. simpl.
    apply list_lookup_insert_eq. now rewrite Hlen1.
Qed.

(** The constructed container. *)
Lemma InfoBarViewSubViews_new_spec tp :
  ∃ sv, InfoBarViewSubViews_new tp = Ok sv ∧
        well_formed sv ∧
        shows_before_checking sv ∧
        views_visible_before_checking_ sv = [2; 3; 4; 7]%nat ∧
        views_visible_after_checking_ sv = [5; 6]%nat ∧
        theme_provider sv = tp.
Proof.
  eexists. split; [vm_compute; reflexivity|].
  split; [|split; [|split; [|split]]]; try reflexivity.
  - constructor; simpl.
    + repeat constructor.
    + repeat constructor.
    + repeat constructor.
    + exists 1%nat. split; [reflexivity | repeat constructor].
    + intros p Hb Ha.
      repeat (apply elem_of_cons in Hb as [->|Hb]);
        [| | | |now apply elem_of_nil in Hb];
        repeat (apply elem_of_cons in Ha as [Ha|Ha]; [discriminate|]);
        now apply elem_of_nil in Ha.
  - split; repeat constructor.
Qed.

End SubViewsProofs.

(** ** The infobar view *)

Lemma opposite_visibility_not_both s : opposite_visibility s → ¬ both_visible s.
Proof.
  intros (b & Hb & Ha) (p & q & Hp & Hq & Hvp & Hvq).
  unfold all_visible_is in Hb, Ha. rewrite Forall_forall in Hb, Ha.
  specialize (Hb p Hp). specialize (Ha q Hq).
  rewrite Hvp in Hb. rewrite Hvq in Ha.
  destruct b; simpl in *; congruence.
Qed.

Lemma opposite_visibility_same_views s s' :
  views_visible_before_checking_ s' = views_visible_before_checking_ s →
  views_visible_after_checking_ s' = views_visible_after_checking_ s →
  (∀ p, GetVisible s' p = GetVisible s p) →
  opposite_visibility s → opposite_visibility s'.
Proof.
  intros Hbefore Hafter Hvis (b & Hb & Ha). exists b.
  rewrite Hbefore, Hafter. unfold all_visible_is in *.
  split; [eapply Forall_impl; [exact Hb|] | eapply Forall_impl; [exact Ha|]];
    intros p Hp; simpl; now rewrite Hvis.
Qed.

Lemma app_ne_self {A : Type} (l k : list A) : k ≠ [] → l ++ k ≠ l.
Proof.
  intros Hk Heq. apply (f_equal length) in Heq. rewrite length_app in Heq.
  destruct k; [congruence | simpl in Heq; lia].
Qed.

Section InfoBarViewProofs.
Context `{Toolkit} `{JsonLibrary}.

(** The switch to the failure controls, from a well-formed container. *)
Lemma OnWaybackURLFetchFailed_spec st :
  well_formed (sub_views_ st) →
  ∃ sv', OnWaybackURLFetchFailed (sub_views_ st) = Ok (tt, sv') ∧
         on_sub_views OnWaybackURLFetchFailed st = Ok (set_sub_views sv' st) ∧
         well_formed sv' ∧
         only_visibility_differs (sub_views_ st) sv' ∧
         shows_after_checking sv'.
Proof.
  intros Hwf.
  destruct (UpdateChildrenVisibility_spec false _ Hwf)
    as (sv' & Hrun & Hwf' & Hdiff & Hb & Ha).
  exists sv'. unfold on_sub_views, OnWaybackURLFetchFailed. rewrite Hrun.
  split; [reflexivity | split; [reflexivity |]].
  split; [exact Hwf' | split; [exact Hdiff | split; assumption]].
Qed.

(** The three ways of a completion through the handler. *)
Lemma OnWaybackURLFetched_failed response_body st :
  fetch_failed response_body →
  OnWaybackURLFetched response_body st =
  on_sub_views OnWaybackURLFetchFailed st.
Proof.
  intros [-> | [(body & -> & Hr) | (body & result & -> & Hr & Hp)]]; simpl.
  - reflexivity.
  - now rewrite Hr.
  - now rewrite Hr, Hp.
Qed.

Lemma OnWaybackURLFetched_found body result found st :
  JSONReader_Read body = Some result →
  FindPath result "archived_snapshots.closest.url" = Some found →
  OnWaybackURLFetched (Some body) st =
  match GetString found with
  | Some last_wayback_url =>
      Ok (call_host RemoveInfoBar (LoadURL last_wayback_url st))
  | None => Fault CHECK_failed
  end.
Proof. intros Hr Hp. simpl. now rewrite Hr, Hp. Qed.

Lemma fetch_failed_or_found response_body :
  fetch_failed response_body ∨
  ∃ body result found,
    response_body = Some body ∧ JSONReader_Read body = Some result ∧
    FindPath result "archived_snapshots.closest.url" = Some found.
Proof.
  destruct response_body as [body|]; [|left; now left].
  destruct (JSONReader_Read body) as [result|] eqn:Hr;
    [|left; right; left; eauto].
  destruct (FindPath result "archived_snapshots.closest.url") as [found|] eqn:Hp.
  - right. eauto 6.
  - left. right. right. eauto.
Qed.

Lemma fetch_failed_not_found body result found :
  JSONReader_Read body = Some result →
  FindPath result "archived_snapshots.closest.url" = Some found →
  ¬ fetch_failed (Some body).
Proof.
  intros Hr Hp [Hn | [(b & Hb & Hr') | (b & r & Hb & Hr' & Hp')]].
  - discriminate.
  - injection Hb as <-. congruence.
  - injection Hb as <-. congruence.
Qed.

Lemma BraveWaybackMachineInfoBarView_new_eq visible_url tp :
  BraveWaybackMachineInfoBarView_new visible_url tp =
  bind_result (InfoBarViewSubViews_new tp)
    (λ sv, Ok (mkInfoBar visible_url None sv [])).
Proof. reflexivity. Qed.

(** Every reachable view has a well-formed container whose two sets have
    opposite visibility. *)
Lemma reachable_invariant st :
  reachable st →
  well_formed (sub_views_ st) ∧ opposite_visibility (sub_views_ st).
Proof.
  induction 1 as [visible_url tp st Hnew | a st st' Hreach [Hwf Hopp] Hstep].
  - rewrite BraveWaybackMachineInfoBarView_new_eq in Hnew.
    destruct (InfoBarViewSubViews_new_spec tp)
      as (sv & Hsv & Hwf & [Hb Ha] & _).
    rewrite Hsv in Hnew. simpl in Hnew. injection Hnew as <-. simpl.
    split; [exact Hwf | exists true; split; assumption].
  - destruct a as [sender event | response_body | tp | spec]; simpl in Hstep.
    + injection Hstep as <-. simpl. split; assumption.
    + destruct (fetch_failed_or_found response_body)
        as [Hfail | (body & result & found & -> & Hr & Hp)].
      * rewrite (OnWaybackURLFetched_failed _ _ Hfail) in Hstep.
        destruct (OnWaybackURLFetchFailed_spec st Hwf)
          as (sv' & _ & Hrun & Hwf' & _ & [Hb Ha]).
        rewrite Hrun in Hstep. injection Hstep as <-. simpl.
        split; [exact Hwf' | exists false; split; assumption].
      * rewrite (OnWaybackURLFetched_found _ _ _ _ Hr Hp) in Hstep.
        destruct (GetString found); [|discriminate].
        injection Hstep as <-. simpl. split; assumption.
    + assert (Hwf1 : well_formed (set_theme_provider tp (sub_views_ st))).
      { destruct Hwf. constructor; assumption. }
      destruct (OnThemeChanged_spec _ Hwf1)
        as (sv' & bg & tc & _ & _ & Hrun & Hwf' & Heq & Hvis & _).
      unfold on_sub_views in Hstep. simpl in Hstep. rewrite Hrun in Hstep.
      injection Hstep as <-. simpl. split; [exact Hwf'|].
      apply (opposite_visibility_same_views (sub_views_ st)).
      * exact (f_equal views_visible_before_checking_ Heq).
      * exact (f_equal views_visible_after_checking_ Heq).
      * intros p. rewrite Hvis. reflexivity.
      * exact Hopp.
    + injection Hstep as <-. simpl. split; assumption.
Qed.

(** A step other than a press of the button starts no request. *)
Lemma step_requests a st st' :
  step a st = Ok st' →
  requests (host_calls st') ≠ requests (host_calls st) →
  ∃ sender event, a = Press sender event.
Proof.
  intros Hstep Hne.
  destruct a as [sender event | response_body | tp | spec]; simpl in Hstep.
  - eauto.
  - exfalso. apply Hne. clear Hne.
    destruct (fetch_failed_or_found response_body)
      as [Hfail | (body & result & found & -> & Hr & Hp)].
    + rewrite (OnWaybackURLFetched_failed _ _ Hfail) in Hstep.
      unfold on_sub_views in Hstep.
      destruct (OnWaybackURLFetchFailed (sub_views_ st)) as [[[] sv]|];
        [|discriminate].
      now injection Hstep as <-.
    + rewrite (OnWaybackURLFetched_found _ _ _ _ Hr Hp) in Hstep.
      destruct (GetString found); [|discriminate].
      injection Hstep as <-. simpl. unfold requests.
      rewrite !List.filter_app. simpl. now rewrite !app_nil_r.
  - exfalso. apply Hne. unfold on_sub_views in Hstep. simpl in Hstep.
    destruct (OnThemeChanged _) as [[[] sv]|]; [|discriminate].
    now injection Hstep as <-.
  - exfalso. apply Hne. now injection Hstep as <-.
Qed.

End InfoBarViewProofs.

(** ** Labels and colours *)

Lemma update_fresh s h v (f : View → View) :
  store s = h ++ [v] →
  update (length h) f s = Ok (tt, set_store (h ++ [f v]) s).
Proof.
  intros Hs. unfold update. rewrite Hs.
  rewrite list_lookup_middle by reflexivity.
  rewrite insert_app_r_alt by reflexivity.
  now rewrite Nat.sub_diag.
Qed.

Section LabelProofs.
Context `{Toolkit}.

(** [CreateLabel] never stops early: the label is a new object with the two
    colours [GetColor] answers, and it is the last of [labels_]. *)
Lemma CreateLabel_spec text s :
  CreateLabel text s =
  Ok (length (store s),
      mkSubViews
        (store s ++
           [mkView (KLabel text) true
              (Some (match theme_provider s with
                     | Some tp => tp kInfoBarLabelBackgroundColor
                     | None => kPlaceholderColor
                     end))
              (Some (match theme_provider s with
                     | Some tp => tp kInfoBarLabelTextColor
                     | None => kPlaceholderColor
                     end))
              None [HorizontalAlignLeft]])
        (layout_manager s) (children s) (theme_provider s)
        (labels_ s ++ [length (store s)])
        (views_visible_before_checking_ s)
        (views_visible_after_checking_ s) (separator_ s)).
Proof.
  unfold CreateLabel.
  erewrite bind_Ok by reflexivity.
  erewrite bind_Ok by reflexivity.
  erewrite bind_Ok by apply GetColor_Ok.
  erewrite bind_Ok by (apply update_fresh; reflexivity).
  erewrite bind_Ok by (apply update_fresh; reflexivity).
  erewrite bind_Ok by apply GetColor_Ok.
  erewrite bind_Ok by (apply update_fresh; reflexivity).
  reflexivity.
Qed.

End LabelProofs.

(** * Properties of the specification *)

Section Properties.
Context `{Toolkit} `{JsonLibrary}.

Lemma OnWaybackURLFetched_inspect response_body st :
  OnWaybackURLFetched response_body st =
  match inspect response_body with
  | FieldPresent found =>
      match GetString found with
      | Some last_wayback_url =>
          Ok (call_host RemoveInfoBar (LoadURL last_wayback_url st))
      | None => Fault CHECK_failed
      end
  | _ => on_sub_views OnWaybackURLFetchFailed st
  end.
Proof.
  unfold inspect, OnWaybackURLFetched.
  destruct response_body as [body|]; [|reflexivity].
  destruct (JSONReader_Read body) as [result|]; [|reflexivity].
  destruct (FindPath result "archived_snapshots.closest.url"); reflexivity.
Qed.

(** The success branch: when the response body is present, parses as JSON
    and holds a string at the path archived_snapshots.closest.url, the
    handler asks the navigation controller to load that URL, then asks the
    infobar service to remove the infobar, and leaves the controls as they
    are: it is not the switch to the failure controls. *)
Theorem snapshot_url_is_loaded_and_infobar_removed
  st body result found last_wayback_url :
  JSONReader_Read body = Some result →
  FindPath result "archived_snapshots.closest.url" = Some found →
  GetString found = Some last_wayback_url →
  OnWaybackURLFetched (Some body) st =
    Ok (mkInfoBar (visible_url_spec st) (wayback_url_fetcher_ st)
          (sub_views_ st)
          (host_calls st ++ navigation_and_removal last_wayback_url)) ∧
  ¬ switched_to_failure st (OnWaybackURLFetched (Some body) st).
Proof.
  intros Hr Hp Hs.
  assert (Hrun : OnWaybackURLFetched (Some body) st =
    Ok (mkInfoBar (visible_url_spec st) (wayback_url_fetcher_ st)
          (sub_views_ st)
          (host_calls st ++ navigation_and_removal last_wayback_url))).
  { rewrite (OnWaybackURLFetched_found _ _ _ _ Hr Hp), Hs.
    unfold call_host, LoadURL, navigation_and_removal. simpl.
    now rewrite <- app_assoc. }
  split; [exact Hrun|].
  rewrite Hrun. intros (sv' & _ & Heq).
  injection Heq as _ Hcalls.
  apply (app_ne_self (host_calls st) (navigation_and_removal last_wayback_url));
    [discriminate | exact Hcalls].
Qed.

(** The failure branch: from a reachable state, the run of the handler is
    the switch to the failure controls if and only if the response body is
    absent, or is not JSON, or lacks the path archived_snapshots.closest.url.
    In these cases the failure controls are shown and nothing is asked of the
    browser: no navigation, no removal of the infobar.  A run that returns
    having asked nothing of the browser is one of these cases. *)
Theorem failure_controls_iff_fetch_failed st response_body :
  reachable st →
  (switched_to_failure st (OnWaybackURLFetched response_body st) ↔
   fetch_failed response_body) ∧
  (fetch_failed response_body →
   ∃ st', OnWaybackURLFetched response_body st = Ok st' ∧
          shows_after_checking (sub_views_ st') ∧
          host_calls st' = host_calls st) ∧
  (∀ st', OnWaybackURLFetched response_body st = Ok st' →
          host_calls st' = host_calls st →
          fetch_failed response_body).
Proof.
  intros Hreach. destruct (reachable_invariant st Hreach) as [Hwf _].
  destruct (OnWaybackURLFetchFailed_spec st Hwf)
    as (sv' & Hsv & Hrun & _ & _ & Hshow).
  destruct (fetch_failed_or_found response_body)
    as [Hfail | (body & result & found & -> & Hr & Hp)].
  - rewrite (OnWaybackURLFetched_failed _ _ Hfail), Hrun.
    split; [|split].
    + split; [intros _; exact Hfail | intros _; exists sv'; now split].
    + intros _. exists (set_sub_views sv' st).
      split; [reflexivity | split; [exact Hshow | reflexivity]].
    + intros _ _ _. exact Hfail.
  - pose proof (fetch_failed_not_found _ _ _ Hr Hp) as Hnot.
    rewrite (OnWaybackURLFetched_found _ _ _ _ Hr Hp).
    split; [|split].
    + split; [|intros Hfail; now destruct Hnot].
      intros (sv'' & _ & Heq). exfalso.
      destruct (GetString found); [|discriminate].
      injection Heq as _ Hcalls.
      apply (app_ne_self (host_calls st)
               (navigation_and_removal s)); [discriminate|].
      unfold navigation_and_removal. simpl. rewrite <- Hcalls at 2.
      now rewrite <- app_assoc.
    + intros Hfail. now destruct Hnot.
    + intros st' Heq Hcalls. exfalso.
      destruct (GetString found); [|discriminate].
      injection Heq as <-. simpl in Hcalls.
      apply (app_ne_self (host_calls st)
               (navigation_and_removal s)); [discriminate|].
      unfold navigation_and_removal. simpl. rewrite <- Hcalls at 2.
      now rewrite <- app_assoc.
Qed.

(** C3: a press of the button, whatever the sender, the event and the URL
    the tab shows, starts exactly one request, and its URL is built from the
    fixed prefix followed by the spec of the visible URL. *)
Theorem ButtonPressed_requests_wayback_url sender event st :
  let request :=
    DownloadToString
      (Create
         (mkRequest
            (MakeGURL ("https://archive.org/wayback/available?url="
                       +:+ visible_url_spec st)))
         GetNetworkTrafficAnnotationTag)
      kMaxBodySize in
  host_calls (ButtonPressed sender event st) = host_calls st ++ [request] ∧
  requests (host_calls (ButtonPressed sender event st)) =
    requests (host_calls st) ++ [request] ∧
  length (requests (host_calls (ButtonPressed sender event st))) =
    S (length (requests (host_calls st))).
Proof.
  simpl. split; [reflexivity|].
  unfold requests. rewrite List.filter_app. simpl.
  split; [reflexivity|]. rewrite length_app. simpl. lia.
Qed.

(** C4: in every reachable state the two sets of controls have opposite
    visibility, so no view of the one is visible together with a view of
    the other; and the one operation that changes visibility,
    UpdateChildrenVisibility, runs to its end there, gives every view of
    the first set the visibility asked for and every view of the second set
    the opposite one, and changes nothing but visibility. *)
Theorem visibility_sets_never_both_visible st :
  reachable st →
  opposite_visibility (sub_views_ st) ∧
  ¬ both_visible (sub_views_ st) ∧
  ∀ b, ∃ sv',
    UpdateChildrenVisibility b (sub_views_ st) = Ok (tt, sv') ∧
    all_visible_is sv' (views_visible_before_checking_ sv') b ∧
    all_visible_is sv' (views_visible_after_checking_ sv') (negb b) ∧
    only_visibility_differs (sub_views_ st) sv'.
Proof.
  intros Hreach. destruct (reachable_invariant st Hreach) as [Hwf Hopp].
  split; [exact Hopp|]. split; [now apply opposite_visibility_not_both|].
  intros b.
  destruct (UpdateChildrenVisibility_spec b _ Hwf)
    as (sv' & Hrun & _ & Hdiff & Hb & Ha).
  exists sv'. split; [exact Hrun|]. split; [exact Hb|]. split; [exact Ha|].
  exact Hdiff.
Qed.

(** C6: the size limit is 1024 * 1024 bytes, that is 2^20, which an [int]
    holds, and it is the limit handed to the loader with every request. *)
Theorem max_body_size_is_one_MiB st :
  kMaxBodySize = 1024 * 1024 ∧
  kMaxBodySize = 2 ^ 20 ∧
  ∃ loader,
    host_calls (FetchWaybackURL st) =
    host_calls st ++ [DownloadToString loader (1024 * 1024)].
Proof.
  split; [reflexivity | split; [reflexivity|]].
  eexists. reflexivity.
Qed.

(** C7: two responses that agree on what the handler looks at (whether
    there is a body, whether it is JSON, whether the path
    archived_snapshots.closest.url is there and which value it holds) lead
    to the same outcome from the same state, whatever else they hold. *)
Theorem OnWaybackURLFetched_reads_one_field response1 response2 st :
  inspect response1 = inspect response2 →
  OnWaybackURLFetched response1 st = OnWaybackURLFetched response2 st.
Proof.
  intros Heq. rewrite !OnWaybackURLFetched_inspect. now rewrite Heq.
Qed.

(** C8: from a reachable state, a failed fetch (no body, a body that is not
    JSON, or JSON without the field) returns a state with the same calls to
    the browser, the same loader and the same URL, whose controls differ in
    nothing but visibility: no request is started.  Of all the steps of a
    view, only a press of the button changes the requests started. *)
Theorem failed_fetch_starts_no_request st response_body :
  reachable st →
  fetch_failed response_body →
  (∃ st', OnWaybackURLFetched response_body st = Ok st' ∧
          host_calls st' = host_calls st ∧
          wayback_url_fetcher_ st' = wayback_url_fetcher_ st ∧
          visible_url_spec st' = visible_url_spec st ∧
          only_visibility_differs (sub_views_ st) (sub_views_ st')) ∧
  (∀ a st1 st2,
      step a st1 = Ok st2 →
      requests (host_calls st2) ≠ requests (host_calls st1) →
      ∃ sender event, a = Press sender event).
Proof.
  intros Hreach Hfail. destruct (reachable_invariant st Hreach) as [Hwf _].
  destruct (OnWaybackURLFetchFailed_spec st Hwf)
    as (sv' & _ & Hrun & _ & Hdiff & _).
  split.
  - exists (set_sub_views sv' st).
    rewrite (OnWaybackURLFetched_failed _ _ Hfail), Hrun.
    split; [reflexivity|]. simpl. repeat (split; [reflexivity|]). exact Hdiff.
  - intros a st1 st2. apply step_requests.
Qed.

(** C9: the constructor, which ends with InitializeChildren, runs to its
    end whatever the theme provider; in the state it leaves, the four
    controls that offer the check are visible and the two failure controls
    are hidden.  The same holds of the container inside a new infobar
    view. *)
Theorem InitializeChildren_shows_before_checking tp visible_url :
  (∃ sv, InfoBarViewSubViews_new tp = Ok sv ∧
         views_visible_before_checking_ sv = [2; 3; 4; 7]%nat ∧
         views_visible_after_checking_ sv = [5; 6]%nat ∧
         all_visible_is sv (views_visible_before_checking_ sv) true ∧
         all_visible_is sv (views_visible_after_checking_ sv) false) ∧
  (∃ st, BraveWaybackMachineInfoBarView_new visible_url tp = Ok st ∧
         shows_before_checking (sub_views_ st) ∧
         ¬ shows_after_checking (sub_views_ st)).
Proof.
  destruct (InfoBarViewSubViews_new_spec tp)
    as (sv & Hsv & Hwf & [Hb Ha] & Hbl & Hal & _).
  split.
  - exists sv. split; [exact Hsv|]. split; [exact Hbl|]. split; [exact Hal|].
    split; assumption.
  - exists (mkInfoBar visible_url None sv []).
    rewrite BraveWaybackMachineInfoBarView_new_eq, Hsv. simpl.
    split; [reflexivity|]. split; [now split|].
    intros [Hb' _]. rewrite Hbl in Hb, Hb'.
    inversion Hb as [|? ? Hv _]. inversion Hb' as [|? ? Hv' _].
    congruence.
Qed.

(** C10: GetColor never stops early and leaves the state alone; it answers
    the theme provider's colour for the id when there is a theme provider
    and the placeholder colour otherwise.  So CreateLabel always returns a
    label with the two colours resolved this way, and OnThemeChanged on a
    well-formed container runs to its end and gives them to every label,
    and the text colour to the separator, with or without a theme
    provider. *)
Theorem GetColor_total s id :
  let color id := match theme_provider s with
                  | Some tp => tp id
                  | None => kPlaceholderColor
                  end in
  GetColor id s = Ok (color id, s) ∧
  (∀ text, ∃ label s' v,
      CreateLabel text s = Ok (label, s') ∧
      store s' !! label = Some v ∧
      background_color v = Some (color kInfoBarLabelBackgroundColor) ∧
      enabled_color v = Some (color kInfoBarLabelTextColor)) ∧
  (well_formed s →
   ∃ s', OnThemeChanged s = Ok (tt, s') ∧
         (∀ p, p ∈ labels_ s →
               ∃ v, store s' !! p = Some v ∧
                    background_color v = Some (color kInfoBarLabelBackgroundColor) ∧
                    enabled_color v = Some (color kInfoBarLabelTextColor)) ∧
         (∃ p v, separator_ s = Some p ∧ store s' !! p = Some v ∧
                 separator_color v = Some (color kInfoBarLabelTextColor))).
Proof.
  intros color. split; [reflexivity|]. split.
  - intros text. rewrite CreateLabel_spec.
    eexists _, _, _. split; [reflexivity|]. simpl.
    split; [now apply list_lookup_middle|]. split; reflexivity.
  - intros Hwf.
    destruct (OnThemeChanged_spec s Hwf)
      as (s' & bg & tc & Hbg & Htc & Hrun & _ & _ & _ & Hlabels & Hsep).
    rewrite GetColor_Ok in Hbg, Htc.
    injection Hbg as <-. injection Htc as <-.
    exists s'. split; [exact Hrun|]. split; assumption.
Qed.

End Properties.

(** * The properties on concrete inputs *)

#[local] Existing Instance sample_toolkit.
#[local] Existing Instance base_json.

(** C5: the response whose field holds the number 5 is JSON and has the
    path, so the handler takes the success branch; the value found is not a
    string, and the run ends in the failed CHECK of GetString, from every
    state. *)
Theorem GetString_check_fails_on_number (st : BraveWaybackMachineInfoBarView) :
  JSONReader_Read body_with_number = Some (snapshot_value (INTEGER 5)) ∧
  FindPath (snapshot_value (INTEGER 5)) "archived_snapshots.closest.url"
    = Some (INTEGER 5) ∧
  GetString (INTEGER 5) = None ∧
  OnWaybackURLFetched (Some body_with_number) st = Fault CHECK_failed.
Proof.
  assert (Hr : JSONReader_Read body_with_number
               = Some (snapshot_value (INTEGER 5))) by (vm_compute; reflexivity).
  assert (Hp : FindPath (snapshot_value (INTEGER 5))
                 "archived_snapshots.closest.url" = Some (INTEGER 5))
    by (vm_compute; reflexivity).
  split; [exact Hr|]. split; [exact Hp|]. split; [reflexivity|].
  now rewrite (OnWaybackURLFetched_found _ _ _ _ Hr Hp).
Qed.

(** C1: the response whose field holds null is present, is JSON and has the
    path, yet the handler neither navigates nor removes the infobar: it
    tests that the value is there, not that it is a string, and the run ends
    in the failed CHECK of GetString. *)
Lemma null_at_path_is_not_loaded :
  JSONReader_Read body_with_null = Some (snapshot_value NONE) ∧
  FindPath (snapshot_value NONE) "archived_snapshots.closest.url" = Some NONE ∧
  OnWaybackURLFetched (Some body_with_null) sample_infobar = Fault CHECK_failed ∧
  ¬ ∃ st', OnWaybackURLFetched (Some body_with_null) sample_infobar = Ok st'.
Proof.
  assert (Hrun : OnWaybackURLFetched (Some body_with_null) sample_infobar
                 = Fault CHECK_failed) by (vm_compute; reflexivity).
  split; [vm_compute; reflexivity|]. split; [vm_compute; reflexivity|].
  split; [exact Hrun|]. intros [st' Hst']. rewrite Hrun in Hst'. discriminate.
Qed.

(** C2: the response whose field holds true is none of the three failure
    cases, yet from the reachable sample view nothing is navigated and the
    infobar is not removed: the run is not the switch to the failure
    controls either, it ends in the failed CHECK of GetString and returns no
    state. *)
Theorem flag_at_path_is_neither_failure_nor_navigation :
  reachable sample_infobar ∧
  JSONReader_Read body_with_flag = Some (snapshot_value (BOOLEAN true)) ∧
  FindPath (snapshot_value (BOOLEAN true)) "archived_snapshots.closest.url"
    = Some (BOOLEAN true) ∧
  ¬ fetch_failed (Some body_with_flag) ∧
  OnWaybackURLFetched (Some body_with_flag) sample_infobar = Fault CHECK_failed ∧
  ¬ switched_to_failure sample_infobar
      (OnWaybackURLFetched (Some body_with_flag) sample_infobar) ∧
  ¬ ∃ st', OnWaybackURLFetched (Some body_with_flag) sample_infobar = Ok st'.
Proof.
  assert (Hr : JSONReader_Read body_with_flag
               = Some (snapshot_value (BOOLEAN true))) by (vm_compute; reflexivity).
  assert (Hp : FindPath (snapshot_value (BOOLEAN true))
                 "archived_snapshots.closest.url" = Some (BOOLEAN true))
    by (vm_compute; reflexivity).
  assert (Hrun : OnWaybackURLFetched (Some body_with_flag) sample_infobar
                 = Fault CHECK_failed)
    by now rewrite (OnWaybackURLFetched_found _ _ _ _ Hr Hp).
  split.
  { apply (reachable_new "http://example.com/gone" None). vm_compute. reflexivity. }
  split; [exact Hr|]. split; [exact Hp|].
  split; [exact (fetch_failed_not_found _ _ _ Hr Hp)|].
  split; [exact Hrun|]. rewrite Hrun. split.
  - intros (sv' & _ & Heq). discriminate.
  - intros (st' & Heq). discriminate.
Qed.

Lemma snapshot_url_is_loaded_witness :
  (JSONReader_Read body_with_snapshot = Some (snapshot_value (STRING snapshot_url)) ∧
   FindPath (snapshot_value (STRING snapshot_url))
     "archived_snapshots.closest.url" = Some (STRING snapshot_url) ∧
   GetString (STRING snapshot_url) = Some snapshot_url) ∧
  OnWaybackURLFetched (Some body_with_snapshot) sample_infobar =
    Ok (mkInfoBar "http://example.com/gone" None (sub_views_ sample_infobar)
          [NavigationController_LoadURL (MakeGURL snapshot_url) NoReferrer
             PAGE_TRANSITION_LINK EmptyString;
           RemoveInfoBar]).
Proof.
  assert (Hr : JSONReader_Read body_with_snapshot
               = Some (snapshot_value (STRING snapshot_url)))
    by (vm_compute; reflexivity).
  assert (Hp : FindPath (snapshot_value (STRING snapshot_url))
                 "archived_snapshots.closest.url" = Some (STRING snapshot_url))
    by (vm_compute; reflexivity).
  assert (Hs : GetString (STRING snapshot_url) = Some snapshot_url)
    by reflexivity.
  split; [split; [exact Hr | split; [exact Hp | exact Hs]]|].
  exact (proj1 (snapshot_url_is_loaded_and_infobar_removed
                  sample_infobar body_with_snapshot _ _ _ Hr Hp Hs)).
Defined.

Lemma failure_controls_iff_fetch_failed_witness :
  reachable sample_infobar ∧
  fetch_failed (Some body_without_snapshot) ∧
  switched_to_failure sample_infobar
    (OnWaybackURLFetched (Some body_without_snapshot) sample_infobar) ∧
  ∃ st', OnWaybackURLFetched (Some body_without_snapshot) sample_infobar = Ok st' ∧
         shows_after_checking (sub_views_ st') ∧
         host_calls st' = host_calls sample_infobar.
Proof.
  assert (Hreach : reachable sample_infobar).
  { apply (reachable_new "http://example.com/gone" None).
    vm_compute. reflexivity. }
  assert (Hfail : fetch_failed (Some body_without_snapshot)).
  { right. right.
    exists body_without_snapshot, (DICTIONARY [("archived_snapshots", DICTIONARY [])]).
    split; [reflexivity|]. split; vm_compute; reflexivity. }
  split; [exact Hreach|]. split; [exact Hfail|].
  destruct (failure_controls_iff_fetch_failed sample_infobar
              (Some body_without_snapshot) Hreach) as (Hiff & Hshown & _).
  split; [apply Hiff; exact Hfail | apply Hshown; exact Hfail].
Defined.

Lemma visibility_sets_never_both_visible_witness :
  reachable sample_infobar_failed ∧
  opposite_visibility (sub_views_ sample_infobar_failed) ∧
  ¬ both_visible (sub_views_ sample_infobar_failed).
Proof.
  assert (Hreach : reachable sample_infobar_failed).
  { apply (reachable_step (Fetched None) sample_infobar).
    - apply (reachable_new "http://example.com/gone" None).
      vm_compute. reflexivity.
    - vm_compute. reflexivity. }
  split; [exact Hreach|].
  destruct (visibility_sets_never_both_visible sample_infobar_failed Hreach)
    as (Hopp & Hnot & _).
  split; [exact Hopp | exact Hnot].
Defined.

Lemma OnWaybackURLFetched_reads_one_field_witness :
  inspect (Some body_with_snapshot) = inspect (Some body_with_snapshot_and_more) ∧
  body_with_snapshot ≠ body_with_snapshot_and_more ∧
  OnWaybackURLFetched (Some body_with_snapshot) sample_infobar =
  OnWaybackURLFetched (Some body_with_snapshot_and_more) sample_infobar.
Proof.
  assert (Heq : inspect (Some body_with_snapshot)
                = inspect (Some body_with_snapshot_and_more))
    by (vm_compute; reflexivity).
  split; [exact Heq|]. split; [vm_compute; discriminate|].
  exact (OnWaybackURLFetched_reads_one_field _ _ sample_infobar Heq).
Defined.

Lemma failed_fetch_starts_no_request_witness :
  reachable sample_infobar_pressed ∧
  fetch_failed (Some "<html>not found</html>") ∧
  ∃ st', OnWaybackURLFetched (Some "<html>not found</html>") sample_infobar_pressed
           = Ok st' ∧
         host_calls st' = host_calls sample_infobar_pressed ∧
         wayback_url_fetcher_ st' = wayback_url_fetcher_ sample_infobar_pressed.
Proof.
  assert (Hreach : reachable sample_infobar_pressed).
  { apply (reachable_step (Press 7%nat (mkEvent 0)) sample_infobar).
    - apply (reachable_new "http://example.com/gone" None).
      vm_compute. reflexivity.
    - reflexivity. }
  assert (Hfail : fetch_failed (Some "<html>not found</html>")).
  { right. left. exists "<html>not found</html>".
    split; [reflexivity | vm_compute; reflexivity]. }
  split; [exact Hreach|]. split; [exact Hfail|].
  destruct (failed_fetch_starts_no_request sample_infobar_pressed _ Hreach Hfail)
    as ((st' & Hrun & Hcalls & Hfetcher & _) & _).
  exists st'. split; [exact Hrun | split; [exact Hcalls | exact Hfetcher]].
Defined.

Lemma GetColor_total_witness :
  well_formed (sub_views_ sample_infobar) ∧
  GetColor COLOR_INFOBAR (sub_views_ sample_infobar)
    = Ok (kPlaceholderColor, sub_views_ sample_infobar) ∧
  ∃ s', OnThemeChanged (sub_views_ sample_infobar) = Ok (tt, s') ∧
        ∃ p v, separator_ (sub_views_ sample_infobar) = Some p ∧
               store s' !! p = Some v ∧
               separator_color v = Some kPlaceholderColor.
Proof.
  assert (Hwf : well_formed (sub_views_ sample_infobar)).
  { constructor; simpl.
    - repeat constructor.
    - repeat constructor.
    - repeat constructor.
    - exists 1%nat. split; [reflexivity | repeat constructor].
    - intros p Hb Ha.
      repeat (apply elem_of_cons in Hb as [->|Hb]);
        [| | | |now apply elem_of_nil in Hb];
        repeat (apply elem_of_cons in Ha as [Ha|Ha]; [discriminate|]);
        now apply elem_of_nil in Ha. }
  split; [exact Hwf|].
  destruct (GetColor_total (sub_views_ sample_infobar) COLOR_INFOBAR)
    as (Hcolor & _ & Htheme).
  split; [exact Hcolor|].
  destruct (Htheme Hwf) as (s' & Hrun & _ & Hsep).
  exists s'. split; [exact Hrun | exact Hsep].
Defined.

(** * Further properties of the container *)

(** ** Loops as one update of the store *)

Lemma lookup_apply_on ps f h p :
  apply_on ps f h !! p = if decide (p ∈ ps) then f <$> h !! p else h !! p.
Proof.
  unfold apply_on. rewrite list_lookup_imap.
  destruct (decide (p ∈ ps)), (h !! p); reflexivity.
Qed.

Lemma length_apply_on ps f h : length (apply_on ps f h) = length h.
Proof. apply length_imap. Qed.

Lemma for_each_update_eq ps (f : View → View) s :
  (∀ v, f (f v) = f v) →
  Forall (λ p, (p < length (store s))%nat) ps →
  for_each ps (λ p, update p f) s = Ok (tt, set_store (apply_on ps f (store s)) s).
Proof.
  intros Hidem Hps.
  destruct (for_each_update ps f s Hidem Hps) as (h & Hrun & _ & Hh).
  rewrite Hrun. do 3 f_equal. apply list_eq. intros p.
  now rewrite Hh, lookup_apply_on.
Qed.

(** Two stores are equal when every object is: the setters of the views act
    on separate members. *)
Ltac store_eq :=
  apply list_eq; intros ?p; rewrite ?lookup_apply_on;
  repeat match goal with
         | |- context [decide (?x ∈ ?l)] => destruct (decide (x ∈ l))
         end;
  match goal with
  | |- context [?h !! ?p] =>
      destruct (h !! p) as [[? ? ? ? ? ?]|] eqn:?; simpl; try reflexivity
  end.

Section ContainerProperties.
Context `{Toolkit}.

Lemma UpdateChildrenVisibility_eq b s :
  well_formed s →
  UpdateChildrenVisibility b s =
  Ok (tt, set_store
            (apply_on (views_visible_after_checking_ s) (with_visible (negb b))
               (apply_on (views_visible_before_checking_ s) (with_visible b)
                  (store s))) s).
Proof.
  intros [Hb Ha _ _ _]. unfold UpdateChildrenVisibility.
  rewrite bind_read.
  rewrite (bind_Ok _ _ _ _ _
             (for_each_update_eq _ _ s (with_visible_twice b b) Hb)).
  rewrite bind_read. simpl. unfold SetVisible.
  rewrite for_each_update_eq; [reflexivity | apply with_visible_twice |].
  simpl. now rewrite length_apply_on.
Qed.

Lemma OnThemeChanged_eq s sep :
  well_formed s →
  separator_ s = Some sep →
  OnThemeChanged s =
  Ok (tt, set_store
            (apply_on [sep]
               (with_separator_color (resolved_color s kInfoBarLabelTextColor))
               (apply_on (labels_ s)
                  (with_enabled_color (resolved_color s kInfoBarLabelTextColor)
                   ∘ with_background_color
                       (resolved_color s kInfoBarLabelBackgroundColor))
                  (store s))) s).
Proof.
  intros [_ _ Hl (sep' & Hsep' & Hlt) _] Hsep.
  rewrite Hsep in Hsep'. injection Hsep' as <-.
  unfold OnThemeChanged.
  rewrite (bind_Ok _ _ _ _ _ (GetColor_Ok _ s)).
  rewrite (bind_Ok _ _ _ _ _ (GetColor_Ok _ s)).
  rewrite bind_read. fold (resolved_color s kInfoBarLabelBackgroundColor).
  fold (resolved_color s kInfoBarLabelTextColor).
  erewrite bind_Ok.
  2:{ erewrite for_each_ext; [|intros p s0; apply update_update].
      apply for_each_update_eq; [reflexivity | exact Hl]. }
  rewrite bind_read. simpl. rewrite Hsep. unfold SetColor.
  set (h1 := apply_on (labels_ s) _ (store s)).
  destruct (lookup_lt_is_Some_2 h1 sep) as [v1 Hv1].
  { unfold h1. now rewrite length_apply_on. }
  rewrite (update_Ok _ _ _ v1) by exact Hv1. rewrite set_store_set_store.
  simpl. do 3 f_equal. apply list_eq. intros p. rewrite lookup_apply_on.
  destruct (decide (p = sep)) as [->|Hne].
  - rewrite list_lookup_insert_eq by (unfold h1; now rewrite length_apply_on).
    rewrite decide_True by (apply list_elem_of_singleton; reflexivity).
    now rewrite Hv1.
  - rewrite list_lookup_insert_ne by congruence.
    rewrite decide_False; [reflexivity|].
    intros Hin. apply list_elem_of_singleton in Hin. contradiction.
Qed.

End ContainerProperties.

(** The container of a concrete view is well formed: its vectors are read
    off. *)
Ltac well_formed_by_computation :=
  constructor; simpl;
  [ repeat constructor | repeat constructor | repeat constructor
  | eexists; split; [reflexivity | repeat constructor]
  | let p := fresh "p" in
    let Hb := fresh "Hb" in
    let Ha := fresh "Ha" in
    intros p Hb Ha;
    repeat (apply elem_of_cons in Hb as [->|Hb]);
    try (now apply elem_of_nil in Hb);
    repeat (apply elem_of_cons in Ha as [Ha|Ha]; [discriminate|]);
    now apply elem_of_nil in Ha ].

Section ContainerCompositions.
Context `{Toolkit}.

Lemma well_formed_after_loops s h :
  length h = length (store s) → well_formed s → well_formed (set_store h s).
Proof. apply well_formed_set_store. Qed.

(** On the store, the second of two changes of visibility undoes the
    first. *)
Lemma visibility_twice_store before after b c (h : list View) :
  apply_on after (with_visible (negb b))
    (apply_on before (with_visible b)
       (apply_on after (with_visible (negb c))
          (apply_on before (with_visible c) h))) =
  apply_on after (with_visible (negb b)) (apply_on before (with_visible b) h).
Proof. store_eq. Qed.

(** A store whose two sets have the visibility asked for is left as it
    is. *)
Lemma visibility_fixed_store b s :
  well_formed s →
  all_visible_is s (views_visible_before_checking_ s) b →
  all_visible_is s (views_visible_after_checking_ s) (negb b) →
  apply_on (views_visible_after_checking_ s) (with_visible (negb b))
    (apply_on (views_visible_before_checking_ s) (with_visible b) (store s))
  = store s.
Proof.
  intros Hwf Hb Ha.
  unfold all_visible_is in Hb, Ha. rewrite Forall_forall in Hb, Ha.
  apply list_eq. intros p. rewrite !lookup_apply_on.
  destruct (decide (p ∈ views_visible_after_checking_ s)) as [Hpa|Hpa];
    destruct (decide (p ∈ views_visible_before_checking_ s)) as [Hpb|Hpb].
  - destruct (wf_disjoint s Hwf p Hpb Hpa).
  - specialize (Ha p Hpa). unfold GetVisible in Ha.
    destruct (store s !! p) as [v|]; [|reflexivity].
    simpl in *. injection Ha as <-. now rewrite with_visible_visible.
  - specialize (Hb p Hpb). unfold GetVisible in Hb.
    destruct (store s !! p) as [v|]; [|reflexivity].
    simpl in *. injection Hb as <-. now rewrite with_visible_visible.
  - reflexivity.
Qed.

Lemma well_formed_after_visibility b s :
  well_formed s →
  well_formed
    (set_store
       (apply_on (views_visible_after_checking_ s) (with_visible (negb b))
          (apply_on (views_visible_before_checking_ s) (with_visible b)
             (store s))) s).
Proof.
  intros Hwf. apply well_formed_set_store; [now rewrite !length_apply_on | exact Hwf].
Qed.

(** X1: of two calls of UpdateChildrenVisibility in a row only the last
    counts: the state is the one the last call alone leads to. *)
Theorem UpdateChildrenVisibility_last_call_wins b c s :
  well_formed s →
  (UpdateChildrenVisibility c ;; UpdateChildrenVisibility b) s =
  UpdateChildrenVisibility b s.
Proof.
  intros Hwf.
  rewrite (bind_Ok _ _ _ _ _ (UpdateChildrenVisibility_eq c s Hwf)).
  rewrite UpdateChildrenVisibility_eq by now apply well_formed_after_visibility.
  rewrite (UpdateChildrenVisibility_eq b s Hwf).
  rewrite set_store_set_store. simpl.
  now rewrite visibility_twice_store.
Qed.

(** X2: when the two sets already have the visibility asked for,
    UpdateChildrenVisibility changes nothing at all. *)
Theorem UpdateChildrenVisibility_keeps_shown_state b s :
  well_formed s →
  all_visible_is s (views_visible_before_checking_ s) b →
  all_visible_is s (views_visible_after_checking_ s) (negb b) →
  UpdateChildrenVisibility b s = Ok (tt, s).
Proof.
  intros Hwf Hb Ha. rewrite (UpdateChildrenVisibility_eq b s Hwf).
  rewrite (visibility_fixed_store b s Hwf Hb Ha).
  now rewrite set_store_id.
Qed.

(** X3: switching the controls to the other set and back restores the state
    exactly. *)
Theorem UpdateChildrenVisibility_there_and_back b s :
  well_formed s →
  all_visible_is s (views_visible_before_checking_ s) b →
  all_visible_is s (views_visible_after_checking_ s) (negb b) →
  (UpdateChildrenVisibility (negb b) ;; UpdateChildrenVisibility b) s = Ok (tt, s).
Proof.
  intros Hwf Hb Ha.
  rewrite (bind_Ok _ _ _ _ _ (UpdateChildrenVisibility_eq (negb b) s Hwf)).
  rewrite UpdateChildrenVisibility_eq by now apply well_formed_after_visibility.
  rewrite set_store_set_store. simpl.
  rewrite visibility_twice_store.
  rewrite (visibility_fixed_store b s Hwf Hb Ha).
  now rewrite set_store_id.
Qed.

(** X4: a change of theme and a change of visibility do not interfere: in
    either order they lead to the same state. *)
Theorem OnThemeChanged_UpdateChildrenVisibility_commute b s :
  well_formed s →
  (OnThemeChanged ;; UpdateChildrenVisibility b) s =
  (UpdateChildrenVisibility b ;; OnThemeChanged) s.
Proof.
  intros Hwf. destruct (wf_separator s Hwf) as (sep & Hsep & _).
  rewrite (bind_Ok _ _ _ _ _ (OnThemeChanged_eq s sep Hwf Hsep)).
  rewrite (bind_Ok _ _ _ _ _ (UpdateChildrenVisibility_eq b s Hwf)).
  rewrite UpdateChildrenVisibility_eq
    by (apply well_formed_set_store; [now rewrite !length_apply_on | exact Hwf]).
  rewrite (OnThemeChanged_eq _ sep)
    by first [ exact Hsep
             | apply well_formed_set_store;
               [now rewrite !length_apply_on | exact Hwf] ].
  rewrite !set_store_set_store. unfold resolved_color. simpl.
  do 3 f_equal. store_eq.
Qed.

(** X5: OnThemeChanged twice in a row is OnThemeChanged once. *)
Theorem OnThemeChanged_twice s :
  well_formed s →
  (OnThemeChanged ;; OnThemeChanged) s = OnThemeChanged s.
Proof.
  intros Hwf. destruct (wf_separator s Hwf) as (sep & Hsep & _).
  rewrite (bind_Ok _ _ _ _ _ (OnThemeChanged_eq s sep Hwf Hsep)).
  rewrite (OnThemeChanged_eq _ sep)
    by first [ exact Hsep
             | apply well_formed_set_store;
               [now rewrite !length_apply_on | exact Hwf] ].
  rewrite (OnThemeChanged_eq s sep Hwf Hsep).
  rewrite !set_store_set_store. unfold resolved_color. simpl.
  do 3 f_equal. store_eq.
Qed.

End ContainerCompositions.

(** * Further properties of the infobar view *)

Lemma fmap_apply_on {B : Type} (g : View → B) ps f h :
  (∀ v, g (f v) = g v) → g <$> apply_on ps f h = g <$> h.
Proof.
  intros Hg. apply list_eq. intros p.
  rewrite !list_lookup_fmap, lookup_apply_on.
  destruct (decide (p ∈ ps)), (h !! p); simpl; now rewrite ?Hg.
Qed.

Lemma last_loader_app cs c :
  last_loader (cs ++ [c]) =
  match c with
  | DownloadToString loader _ => Some loader
  | _ => last_loader cs
  end.
Proof. unfold last_loader. rewrite fold_left_app. now destruct c. Qed.

Lemma navigations_paired_app_le n cs cs' :
  (length cs ≤ n)%nat →
  navigations_paired cs = true →
  navigations_paired (cs ++ cs') = navigations_paired cs'.
Proof.
  revert cs. induction n as [|n IH]; intros cs Hlen Hcs.
  - destruct cs; [reflexivity | simpl in Hlen; lia].
  - destruct cs as [|c cs]; [reflexivity|].
    destruct c as [loader size | url ref tr hd |]; simpl in *.
    + apply IH; [lia | exact Hcs].
    + destruct cs as [|[| |] cs]; try discriminate.
      simpl in *. apply IH; [lia | exact Hcs].
    + discriminate.
Qed.

Lemma navigations_paired_app cs cs' :
  navigations_paired cs = true →
  navigations_paired (cs ++ cs') = navigations_paired cs'.
Proof. apply (navigations_paired_app_le (length cs)). lia. Qed.

Ltac not_in_list :=
  let Hin := fresh "Hin" in
  intros Hin;
  repeat (apply elem_of_cons in Hin as [Hin|Hin]; [discriminate|]);
  now apply elem_of_nil in Hin.

Section Steps.
Context `{Toolkit} `{JsonLibrary}.

(** What a step does to the container: nothing, the switch to the failure
    controls, or the colours of a theme. *)
Lemma step_sub_views a st st' :
  well_formed (sub_views_ st) →
  step a st = Ok st' →
  let sv := sub_views_ st in
  sub_views_ st' = sv ∨
  sub_views_ st' =
    set_store
      (apply_on (views_visible_after_checking_ sv) (with_visible true)
         (apply_on (views_visible_before_checking_ sv) (with_visible false)
            (store sv))) sv ∨
  ∃ tp sep,
    a = ThemeChanged tp ∧ separator_ sv = Some sep ∧
    sub_views_ st' =
      set_store
        (apply_on [sep]
           (with_separator_color
              (resolved_color (set_theme_provider tp sv) kInfoBarLabelTextColor))
           (apply_on (labels_ sv)
              (with_enabled_color
                 (resolved_color (set_theme_provider tp sv) kInfoBarLabelTextColor)
               ∘ with_background_color
                   (resolved_color (set_theme_provider tp sv)
                      kInfoBarLabelBackgroundColor))
              (store sv)))
        (set_theme_provider tp sv).
Proof.
  intros Hwf Hstep sv.
  destruct a as [sender event | response_body | tp | spec]; simpl in Hstep.
  - left. now injection Hstep as <-.
  - destruct (fetch_failed_or_found response_body)
      as [Hfail | (body & result & found & -> & Hr & Hp)].
    + right. left.
      rewrite (OnWaybackURLFetched_failed _ _ Hfail) in Hstep.
      unfold on_sub_views, OnWaybackURLFetchFailed in Hstep.
      rewrite (UpdateChildrenVisibility_eq false _ Hwf) in Hstep.
      now injection Hstep as <-.
    + left. rewrite (OnWaybackURLFetched_found _ _ _ _ Hr Hp) in Hstep.
      destruct (GetString found); [|discriminate].
      now injection Hstep as <-.
  - right. right. destruct (wf_separator _ Hwf) as (sep & Hsep & _).
    exists tp, sep. split; [reflexivity|]. split; [exact Hsep|].
    unfold on_sub_views in Hstep.
    rewrite (OnThemeChanged_eq (set_theme_provider tp (sub_views_ st)) sep)
      in Hstep.
    + now injection Hstep as <-.
    + destruct Hwf. constructor; assumption.
    + exact Hsep.
  - left. now injection Hstep as <-.
Qed.

(** The constructed container, view by view. *)
Lemma InfoBarViewSubViews_new_views tp :
  ∃ sv, InfoBarViewSubViews_new tp = Ok sv ∧
        well_formed sv ∧
        constructed_shape sv ∧
        theme_provider sv = tp ∧
        labels_have_theme_colors sv ∧
        separator_color <$> store sv !! 1%nat = Some None ∧
        GetVisible sv 0%nat = Some true ∧
        GetVisible sv 1%nat = Some true.
Proof.
  eexists. split; [vm_compute; reflexivity|].
  split; [well_formed_by_computation|].
  split; [constructor; reflexivity|].
  split; [reflexivity|].
  split; [|repeat split].
  repeat constructor.
Qed.

Lemma InfoBarViewSubViews_new_settings tp tp' sv sv' :
  InfoBarViewSubViews_new tp = Ok sv →
  InfoBarViewSubViews_new tp' = Ok sv' →
  settings <$> store sv = settings <$> store sv'.
Proof.
  intros Hsv Hsv'.
  assert (Hc : ∃ l, (∃ s, InfoBarViewSubViews_new tp = Ok s ∧
                          settings <$> store s = l) ∧
                    (∃ s, InfoBarViewSubViews_new tp' = Ok s ∧
                          settings <$> store s = l)).
  { eexists. split; eexists; (split; [vm_compute; reflexivity|]); reflexivity. }
  destruct Hc as (l & (s1 & H1 & <-) & (s2 & H2 & Hl)).
  rewrite Hsv in H1. rewrite Hsv' in H2.
  injection H1 as <-. injection H2 as <-. now rewrite Hl.
Qed.

(** In every reachable state the container is well formed and has the
    constructed shape, the labels have the colours of the theme, the
    separator has no colour yet or the text colour of the theme, and the
    image and the separator are visible. *)
Lemma reachable_views st :
  reachable st →
  well_formed (sub_views_ st) ∧
  constructed_shape (sub_views_ st) ∧
  labels_have_theme_colors (sub_views_ st) ∧
  (separator_color <$> store (sub_views_ st) !! 1%nat = Some None ∨
   separator_color <$> store (sub_views_ st) !! 1%nat
     = Some (Some (resolved_color (sub_views_ st) kInfoBarLabelTextColor))) ∧
  GetVisible (sub_views_ st) 0%nat = Some true ∧
  GetVisible (sub_views_ st) 1%nat = Some true ∧
  (∃ tp0 sv0, InfoBarViewSubViews_new tp0 = Ok sv0 ∧
              settings <$> store (sub_views_ st) = settings <$> store sv0).
Proof.
  induction 1 as [visible_url tp st Hnew
                 | a st st' Hreach (Hwf & Hshape & Hcol & Hsep & Hv0 & Hv1 & Hset) Hstep].
  - rewrite BraveWaybackMachineInfoBarView_new_eq in Hnew.
    destruct (InfoBarViewSubViews_new_views tp)
      as (sv & Hsv & Hwf & Hshape & _ & Hcol & Hsep & Hv0 & Hv1).
    rewrite Hsv in Hnew. simpl in Hnew. injection Hnew as <-. simpl.
    repeat (split; [assumption|]).
    split; [now left|]. repeat (split; [assumption|]).
    exists tp, sv. now split.
  - destruct (step_sub_views a st st' Hwf Hstep)
      as [-> | [-> | (tp & sep & _ & Hsepeq & ->)]].
    + repeat (split; [assumption|]). assumption.
    + set (sv := sub_views_ st) in *.
      assert (Hvis01 : ∀ p, p ∉ views_visible_before_checking_ sv →
                            p ∉ views_visible_after_checking_ sv →
                GetVisible (set_store
                  (apply_on (views_visible_after_checking_ sv) (with_visible true)
                     (apply_on (views_visible_before_checking_ sv)
                        (with_visible false) (store sv))) sv) p
                = GetVisible sv p).
      { intros p Hb Ha. rewrite GetVisible_set_store, !lookup_apply_on.
        now rewrite !decide_False by assumption. }
      split; [apply well_formed_set_store;
              [now rewrite !length_apply_on | exact Hwf]|].
      split.
      { destruct Hshape. constructor; simpl; try assumption.
        now rewrite !fmap_apply_on by reflexivity. }
      split.
      { unfold labels_have_theme_colors in *. simpl.
        eapply Forall_impl; [exact Hcol|]. intros p [Hbg Hen]. simpl.
        rewrite <- !list_lookup_fmap in *.
        now rewrite !fmap_apply_on by reflexivity. }
      split.
      { simpl. rewrite <- !list_lookup_fmap in *.
        now rewrite !fmap_apply_on by reflexivity. }
      split; [|split].
      * rewrite Hvis01; [exact Hv0 | |];
          rewrite ?(shape_before _ Hshape), ?(shape_after _ Hshape); not_in_list.
      * rewrite Hvis01; [exact Hv1 | |];
          rewrite ?(shape_before _ Hshape), ?(shape_after _ Hshape); not_in_list.
      * simpl. destruct Hset as (tp0 & sv0 & Hsv0 & Heq). exists tp0, sv0.
        split; [exact Hsv0|]. now rewrite !fmap_apply_on by reflexivity.
    + set (sv := sub_views_ st) in *.
      set (bg := resolved_color (set_theme_provider tp sv)
                   kInfoBarLabelBackgroundColor) in *.
      set (tc := resolved_color (set_theme_provider tp sv)
                   kInfoBarLabelTextColor) in *.
      assert (Hone : sep = 1%nat).
      { rewrite (shape_separator _ Hshape) in Hsepeq. now injection Hsepeq. }
      subst sep.
      split.
      { apply well_formed_set_store; [now rewrite !length_apply_on|].
        destruct Hwf. constructor; assumption. }
      split.
      { destruct Hshape. constructor; simpl; try assumption.
        now rewrite !fmap_apply_on by reflexivity. }
      split.
      { unfold labels_have_theme_colors. simpl.
        apply Forall_forall. intros p Hp.
        destruct (lookup_lt_is_Some_2 (store sv) p) as [v Hv].
        { pose proof (wf_labels _ Hwf) as Hl. rewrite Forall_forall in Hl.
          now apply Hl. }
        rewrite !lookup_apply_on, Hv. rewrite (decide_True _ _ Hp).
        fold bg tc. destruct (decide (p ∈ [1%nat])); split; reflexivity. }
      split.
      { right. simpl. rewrite !lookup_apply_on.
        destruct (lookup_lt_is_Some_2 (store sv) 1%nat) as [v Hv].
        { destruct (wf_separator _ Hwf) as (q & Hq & Hlt).
          rewrite (shape_separator _ Hshape) in Hq. now injection Hq as <-. }
        rewrite Hv.
        rewrite decide_True by (apply list_elem_of_singleton; reflexivity).
        fold tc. destruct (decide (1%nat ∈ labels_ sv)); reflexivity. }
      split; [|split].
      * rewrite GetVisible_set_store. rewrite <- list_lookup_fmap.
        rewrite !fmap_apply_on by reflexivity.
        rewrite list_lookup_fmap. exact Hv0.
      * rewrite GetVisible_set_store. rewrite <- list_lookup_fmap.
        rewrite !fmap_apply_on by reflexivity.
        rewrite list_lookup_fmap. exact Hv1.
      * simpl. destruct Hset as (tp0 & sv0 & Hsv0 & Heq). exists tp0, sv0.
        split; [exact Hsv0|]. now rewrite !fmap_apply_on by reflexivity.
Qed.

End Steps.

Section InfoBarViewProperties.
Context `{Toolkit} `{JsonLibrary}.

Lemma CreateInfoBar_eq visible_url tp :
  CreateInfoBar visible_url tp =
  bind_result (InfoBarViewSubViews_new tp)
    (λ sv, Ok (mkInfoBar visible_url None sv [])).
Proof. reflexivity. Qed.

(** How a step extends the log of calls to the browser. *)
Lemma step_host_calls a st st' :
  step a st = Ok st' →
  match a with
  | Press _ _ =>
      host_calls st' =
      host_calls st ++
        [DownloadToString
           (Create (mkRequest (MakeGURL (kWaybackQueryURL +:+ visible_url_spec st)))
              GetNetworkTrafficAnnotationTag)
           kMaxBodySize] ∧
      wayback_url_fetcher_ st' =
        Some (Create (mkRequest (MakeGURL (kWaybackQueryURL +:+ visible_url_spec st)))
                GetNetworkTrafficAnnotationTag)
  | Fetched _ =>
      (host_calls st' = host_calls st ∨
       ∃ last_wayback_url,
         host_calls st' = host_calls st ++ navigation_and_removal last_wayback_url) ∧
      wayback_url_fetcher_ st' = wayback_url_fetcher_ st
  | _ =>
      host_calls st' = host_calls st ∧
      wayback_url_fetcher_ st' = wayback_url_fetcher_ st
  end.
Proof.
  intros Hstep.
  destruct a as [sender event | response_body | tp | spec]; simpl in Hstep.
  - injection Hstep as <-. now split.
  - destruct (fetch_failed_or_found response_body)
      as [Hfail | (body & result & found & -> & Hr & Hp)].
    + rewrite (OnWaybackURLFetched_failed _ _ Hfail) in Hstep.
      unfold on_sub_views in Hstep.
      destruct (OnWaybackURLFetchFailed (sub_views_ st)) as [[[] sv]|];
        [|discriminate].
      injection Hstep as <-. split; [now left | reflexivity].
    + rewrite (OnWaybackURLFetched_found _ _ _ _ Hr Hp) in Hstep.
      destruct (GetString found) as [last_wayback_url|]; [|discriminate].
      injection Hstep as <-. split; [|reflexivity].
      right. exists last_wayback_url. simpl.
      unfold navigation_and_removal. now rewrite <- app_assoc.
  - unfold on_sub_views in Hstep. simpl in Hstep.
    destruct (OnThemeChanged _) as [[[] sv]|]; [|discriminate].
    injection Hstep as <-. now split.
  - injection Hstep as <-. now split.
Qed.

(** X6: after construction no view is created, dropped or re-parented, and
    none of the settings made by InitializeChildren changes: in every
    reachable state the container holds the eight views of the constructor,
    of the same kinds and texts and with the same settings, and the same
    children, labels, visibility sets, separator and layout manager. *)
Theorem views_are_fixed_after_construction st :
  reachable st →
  constructed_shape (sub_views_ st) ∧
  length (store (sub_views_ st)) = 8%nat ∧
  ∀ tp0 sv0, InfoBarViewSubViews_new tp0 = Ok sv0 →
             settings <$> store (sub_views_ st) = settings <$> store sv0.
Proof.
  intros Hreach.
  destruct (reachable_views st Hreach)
    as (_ & Hshape & _ & _ & _ & _ & (tp1 & sv1 & Hsv1 & Hset)).
  split; [exact Hshape|]. split.
  - rewrite <- (length_fmap kind), (shape_kinds _ Hshape). reflexivity.
  - intros tp0 sv0 Hsv0. rewrite Hset.
    exact (InfoBarViewSubViews_new_settings tp1 tp0 sv1 sv0 Hsv1 Hsv0).
Qed.

Lemma run_reachable actions st st' :
  reachable st → run actions st = Ok st' → reachable st'.
Proof.
  revert st. induction actions as [|a actions IH]; intros st Hreach Hrun;
    simpl in Hrun.
  - now injection Hrun as <-.
  - destruct (step a st) as [st1|] eqn:Hstep; [|discriminate]. simpl in Hrun.
    apply (IH st1); [|exact Hrun]. exact (reachable_step a st st1 Hreach Hstep).
Qed.

(** A step that is no change of theme keeps the theme provider and the
    colour of the separator. *)
Lemma step_keeps_theme a st st' :
  well_formed (sub_views_ st) →
  step a st = Ok st' →
  is_theme_change a = false →
  theme_provider (sub_views_ st') = theme_provider (sub_views_ st) ∧
  separator_color <$> store (sub_views_ st') !! 1%nat
    = separator_color <$> store (sub_views_ st) !! 1%nat.
Proof.
  intros Hwf Hstep Ha.
  destruct (step_sub_views a st st' Hwf Hstep)
    as [-> | [-> | (tp & sep & -> & _)]].
  - now split.
  - simpl. split; [reflexivity|].
    rewrite <- !list_lookup_fmap. now rewrite !fmap_apply_on by reflexivity.
  - discriminate.
Qed.

Lemma run_keeps_theme actions st st' :
  reachable st →
  run actions st = Ok st' →
  existsb is_theme_change actions = false →
  theme_provider (sub_views_ st') = theme_provider (sub_views_ st).
Proof.
  revert st. induction actions as [|a actions IH]; intros st Hreach Hrun Hno;
    simpl in Hrun, Hno.
  - now injection Hrun as <-.
  - destruct (step a st) as [st1|] eqn:Hstep; [|discriminate]. simpl in Hrun.
    apply orb_false_iff in Hno as [Ha Hno].
    destruct (reachable_invariant st Hreach) as [Hwf _].
    destruct (step_keeps_theme a st st1 Hwf Hstep Ha) as [Htp _].
    rewrite <- Htp.
    exact (IH st1 (reachable_step a st st1 Hreach Hstep) Hrun Hno).
Qed.

(** A change of theme gives the separator the text colour of the new
    theme. *)
Lemma step_theme_separator tp st st' :
  reachable st →
  step (ThemeChanged tp) st = Ok st' →
  separator_color <$> store (sub_views_ st') !! 1%nat
    = Some (Some (resolved_color (sub_views_ st') kInfoBarLabelTextColor)).
Proof.
  intros Hreach Hstep.
  destruct (reachable_views st Hreach) as (Hwf & Hshape & _).
  assert (Hwf1 : well_formed (set_theme_provider tp (sub_views_ st))).
  { destruct Hwf. constructor; assumption. }
  simpl in Hstep. unfold on_sub_views in Hstep.
  rewrite (OnThemeChanged_eq _ 1%nat Hwf1 (shape_separator _ Hshape)) in Hstep.
  injection Hstep as <-. simpl.
  destruct (lookup_lt_is_Some_2 (store (sub_views_ st)) 1%nat) as [v Hv].
  { destruct (wf_separator _ Hwf) as (q & Hq & Hlt).
    rewrite (shape_separator _ Hshape) in Hq. now injection Hq as <-. }
  rewrite !lookup_apply_on, Hv.
  rewrite decide_True by (apply list_elem_of_singleton; reflexivity).
  destruct (decide (1%nat ∈ labels_ (sub_views_ st))); reflexivity.
Qed.

(** The colour of the separator along a run: the one it had, until the first
    change of theme; the text colour of the theme from then on. *)
Lemma run_separator_color actions st st' c0 :
  reachable st →
  separator_color <$> store (sub_views_ st) !! 1%nat = Some c0 →
  run actions st = Ok st' →
  separator_color <$> store (sub_views_ st') !! 1%nat
    = Some (if existsb is_theme_change actions
            then Some (resolved_color (sub_views_ st') kInfoBarLabelTextColor)
            else c0).
Proof.
  revert st c0. induction actions as [|a actions IH]; intros st c0 Hreach Hc Hrun;
    simpl in Hrun.
  - injection Hrun as <-. exact Hc.
  - destruct (step a st) as [st1|] eqn:Hstep; [|discriminate]. simpl in Hrun.
    pose proof (reachable_step a st st1 Hreach Hstep) as Hreach1.
    destruct (is_theme_change a) eqn:Ha; simpl; rewrite Ha; simpl.
    + destruct a as [| | tp |]; try discriminate.
      rewrite (IH st1 _ Hreach1 (step_theme_separator tp st st1 Hreach Hstep) Hrun).
      destruct (existsb is_theme_change actions) eqn:Hlater; [reflexivity|].
      unfold resolved_color.
      now rewrite (run_keeps_theme actions st1 st' Hreach1 Hrun Hlater).
    + destruct (reachable_invariant st Hreach) as [Hwf _].
      destruct (step_keeps_theme a st st1 Hwf Hstep Ha) as [_ Hsame].
      rewrite <- Hsame in Hc. exact (IH st1 c0 Hreach1 Hc Hrun).
Qed.

(** X7: after any sequence of calls into a new view that runs to its end,
    every label carries the background and text colours that the current
    theme provider answers (the placeholder colour when there is none); the
    separator has no colour as long as the sequence holds no change of theme,
    and the text colour of the current theme once it holds one. *)
Theorem labels_follow_theme visible_url tp actions st0 st :
  BraveWaybackMachineInfoBarView_new visible_url tp = Ok st0 →
  run actions st0 = Ok st →
  labels_have_theme_colors (sub_views_ st) ∧
  separator_ (sub_views_ st) = Some 1%nat ∧
  separator_color <$> store (sub_views_ st) !! 1%nat
    = Some (if existsb is_theme_change actions
            then Some (resolved_color (sub_views_ st) kInfoBarLabelTextColor)
            else None).
Proof.
  intros Hnew Hrun.
  pose proof (reachable_new visible_url tp st0 Hnew) as Hreach0.
  pose proof (run_reachable actions st0 st Hreach0 Hrun) as Hreach.
  destruct (reachable_views st Hreach) as (_ & Hshape & Hcol & _).
  split; [exact Hcol|]. split; [exact (shape_separator _ Hshape)|].
  apply (run_separator_color actions st0 st None Hreach0); [|exact Hrun].
  rewrite BraveWaybackMachineInfoBarView_new_eq in Hnew.
  destruct (InfoBarViewSubViews_new_views tp)
    as (sv & Hsv & _ & _ & _ & _ & Hsep & _).
  rewrite Hsv in Hnew. simpl in Hnew. now injection Hnew as <-.
Qed.

(** X8: the children that are in neither visibility set (the image and the
    separator) are visible in every reachable state. *)
Theorem image_and_separator_stay_visible st p :
  reachable st →
  p ∈ children (sub_views_ st) →
  p ∉ views_visible_before_checking_ (sub_views_ st) →
  p ∉ views_visible_after_checking_ (sub_views_ st) →
  GetVisible (sub_views_ st) p = Some true.
Proof.
  intros Hreach Hc Hb Ha.
  destruct (reachable_views st Hreach) as (_ & Hshape & _ & _ & Hv0 & Hv1 & _).
  rewrite (shape_children _ Hshape) in Hc.
  rewrite (shape_before _ Hshape) in Hb.
  rewrite (shape_after _ Hshape) in Ha.
  repeat (apply elem_of_cons in Hc as [->|Hc]);
    try assumption;
    try (exfalso; apply Hb; repeat constructor; fail);
    try (exfalso; apply Ha; repeat constructor; fail).
  now apply elem_of_nil in Hc.
Qed.

(** X9: from a reachable state no call into the view uses a pointer that
    names no view: every step returns a state, but for the completion of a
    fetch whose field is there and is not a string, which ends in the failed
    CHECK. *)
Theorem reachable_step_never_uses_invalid_pointer st a :
  reachable st →
  (∃ st', step a st = Ok st') ∨
  (step a st = Fault CHECK_failed ∧
   ∃ body result found,
     a = Fetched (Some body) ∧
     JSONReader_Read body = Some result ∧
     FindPath result "archived_snapshots.closest.url" = Some found ∧
     GetString found = None).
Proof.
  intros Hreach. destruct (reachable_invariant st Hreach) as [Hwf _].
  destruct a as [sender event | response_body | tp | spec]; simpl.
  - left. eauto.
  - destruct (fetch_failed_or_found response_body)
      as [Hfail | (body & result & found & -> & Hr & Hp)].
    + left. rewrite (OnWaybackURLFetched_failed _ _ Hfail).
      destruct (OnWaybackURLFetchFailed_spec st Hwf) as (sv' & _ & Hrun & _).
      rewrite Hrun. eauto.
    + rewrite (OnWaybackURLFetched_found _ _ _ _ Hr Hp).
      destruct (GetString found) as [last_wayback_url|] eqn:Hs.
      * left. eauto.
      * right. split; [reflexivity|]. exists body, result, found. now repeat split.
  - left.
    assert (Hwf1 : well_formed (set_theme_provider tp (sub_views_ st))).
    { destruct Hwf. constructor; assumption. }
    destruct (OnThemeChanged_spec _ Hwf1) as (sv' & bg & tc & _ & _ & Hrun & _).
    unfold on_sub_views. simpl. rewrite Hrun. eauto.
  - left. eauto.
Qed.

(** X10: the member wayback_url_fetcher_ always holds the loader of the
    request started last: it is empty exactly as long as no request was
    started, and a new press replaces the loader of the press before. *)
Theorem fetcher_is_last_request st :
  reachable st →
  wayback_url_fetcher_ st = last_loader (host_calls st) ∧
  (wayback_url_fetcher_ st = None ↔ requests (host_calls st) = []).
Proof.
  intros Hreach.
  assert (Hlast : wayback_url_fetcher_ st = last_loader (host_calls st)).
  { induction Hreach as [visible_url tp st Hnew | a st st' Hreach IH Hstep].
    - rewrite BraveWaybackMachineInfoBarView_new_eq in Hnew.
      destruct (InfoBarViewSubViews_new tp); [|discriminate].
      simpl in Hnew. now injection Hnew as <-.
    - pose proof (step_host_calls a st st' Hstep) as Hcalls.
      destruct a as [sender event | response_body | tp | spec].
      + destruct Hcalls as [-> ->]. now rewrite last_loader_app.
      + destruct Hcalls as [[-> | (u & ->)] ->]; [exact IH|].
        unfold navigation_and_removal.
        change (host_calls st ++ [?x; ?y]) with (host_calls st ++ [x] ++ [y]).
        rewrite app_assoc, !last_loader_app. exact IH.
      + destruct Hcalls as [-> ->]. exact IH.
      + destruct Hcalls as [-> ->]. exact IH. }
  split; [exact Hlast|]. rewrite Hlast. clear.
  induction (host_calls st) as [|c cs IH] using rev_ind; [easy|].
  rewrite last_loader_app. unfold requests in *. rewrite List.filter_app.
  destruct c; simpl.
  - split; [discriminate|]. intros Hnil.
    apply app_eq_nil in Hnil as [_ Hnil]. discriminate.
  - now rewrite app_nil_r.
  - now rewrite app_nil_r.
Qed.

(** X11: the log of calls to the browser only grows, and in it every
    navigation is followed at once by the removal of the infobar, and no
    removal stands without its navigation. *)
Theorem navigations_are_paired st :
  reachable st →
  navigations_paired (host_calls st) = true ∧
  ∀ a st', step a st = Ok st' → host_calls st `prefix_of` host_calls st'.
Proof.
  intros Hreach. split.
  - induction Hreach as [visible_url tp st Hnew | a st st' Hreach IH Hstep].
    + rewrite BraveWaybackMachineInfoBarView_new_eq in Hnew.
      destruct (InfoBarViewSubViews_new tp); [|discriminate].
      simpl in Hnew. now injection Hnew as <-.
    + pose proof (step_host_calls a st st' Hstep) as Hcalls.
      destruct a as [sender event | response_body | tp | spec].
      * destruct Hcalls as [-> _]. now rewrite navigations_paired_app.
      * destruct Hcalls as [[-> | (u & ->)] _]; [exact IH|].
        now rewrite navigations_paired_app.
      * destruct Hcalls as [-> _]. exact IH.
      * destruct Hcalls as [-> _]. exact IH.
  - intros a st' Hstep. pose proof (step_host_calls a st st' Hstep) as Hcalls.
    destruct a as [sender event | response_body | tp | spec].
    + destruct Hcalls as [-> _]. now apply prefix_app_r.
    + destruct Hcalls as [[-> | (u & ->)] _]; [reflexivity | now apply prefix_app_r].
    + destruct Hcalls as [-> _]. reflexivity.
    + destruct Hcalls as [-> _]. reflexivity.
Qed.

(** X12: requests are started by presses of the button and by nothing else,
    one for each press: after any sequence of calls into the view that runs
    to its end, the number of requests started has grown by the number of
    presses in the sequence. *)
Theorem one_request_per_press actions st st' :
  run actions st = Ok st' →
  length (requests (host_calls st')) =
  (length (requests (host_calls st)) + length (List.filter is_press actions))%nat.
Proof.
  revert st. induction actions as [|a actions IH]; intros st Hrun; simpl in Hrun.
  - injection Hrun as <-. simpl. lia.
  - destruct (step a st) as [st1|] eqn:Hstep; [|discriminate]. simpl in Hrun.
    rewrite (IH st1 Hrun).
    pose proof (step_host_calls a st st1 Hstep) as Hcalls.
    unfold requests.
    destruct a as [sender event | response_body | tp | spec]; simpl.
    + destruct Hcalls as [-> _]. rewrite List.filter_app, length_app. simpl. lia.
    + destruct Hcalls as [[-> | (u & ->)] _]; [lia|].
      rewrite List.filter_app, length_app. simpl. lia.
    + destruct Hcalls as [-> _]. lia.
    + destruct Hcalls as [-> _]. lia.
Qed.

(** X13: nothing guards against repeated presses: n presses in a row start n
    requests for the same URL, and leave the controls and the URL of the tab
    as they are. *)
Theorem repeated_presses n sender event st :
  let st' := Nat.iter n (ButtonPressed sender event) st in
  host_calls st' =
    host_calls st ++
    repeat (DownloadToString
              (Create (mkRequest
                         (MakeGURL (kWaybackQueryURL +:+ visible_url_spec st)))
                 GetNetworkTrafficAnnotationTag)
              kMaxBodySize) n ∧
  sub_views_ st' = sub_views_ st ∧
  visible_url_spec st' = visible_url_spec st.
Proof.
  induction n as [|n (Hcalls & Hsv & Hurl)]; simpl.
  - now rewrite app_nil_r.
  - split; [|split; assumption].
    rewrite Hcalls, Hurl, <- app_assoc. f_equal.
    symmetry. apply repeat_cons.
Qed.

(** X14: from a reachable state, a second failed fetch after a failed fetch
    changes nothing: the state after the first is the state after both. *)
Theorem failed_fetch_twice st response1 response2 :
  reachable st →
  fetch_failed response1 →
  fetch_failed response2 →
  ∃ st1, OnWaybackURLFetched response1 st = Ok st1 ∧
         OnWaybackURLFetched response2 st1 = Ok st1.
Proof.
  intros Hreach Hf1 Hf2. destruct (reachable_invariant st Hreach) as [Hwf _].
  destruct (OnWaybackURLFetchFailed_spec st Hwf)
    as (sv' & _ & Hrun & Hwf' & _ & [Hb Ha]).
  exists (set_sub_views sv' st).
  rewrite (OnWaybackURLFetched_failed _ _ Hf1).
  split; [exact Hrun|].
  rewrite (OnWaybackURLFetched_failed _ _ Hf2).
  unfold on_sub_views, OnWaybackURLFetchFailed. simpl.
  rewrite UpdateChildrenVisibility_eq by exact Hwf'.
  rewrite (visibility_fixed_store false sv' Hwf' Hb Ha).
  now rewrite set_store_id.
Qed.

(** X16: from a reachable state, after a failed fetch every button of the
    container is hidden, so no further press can come from it, while the
    label that says that no snapshot is available and the sad icon are
    shown. *)
Theorem failed_fetch_hides_check_button st response_body :
  reachable st →
  fetch_failed response_body →
  ∃ st', OnWaybackURLFetched response_body st = Ok st' ∧
         (∀ p v text, store (sub_views_ st') !! p = Some v →
                      kind v = KMdTextButton text → visible v = false) ∧
         kind <$> store (sub_views_ st') !! 5%nat
           = Some (KLabel (GetStringUTF16
                     IDS_BRAVE_WAYBACK_MACHINE_INFOBAR_NOT_AVAILABLE_TEXT)) ∧
         GetVisible (sub_views_ st') 5%nat = Some true ∧
         kind <$> store (sub_views_ st') !! 6%nat = Some KImageView ∧
         GetVisible (sub_views_ st') 6%nat = Some true.
Proof.
  intros Hreach Hfail. destruct (reachable_invariant st Hreach) as [Hwf _].
  destruct (OnWaybackURLFetchFailed_spec st Hwf)
    as (sv' & _ & Hrun & _ & _ & [Hb Ha]).
  assert (Hstep : step (Fetched response_body) st = Ok (set_sub_views sv' st)).
  { simpl. now rewrite (OnWaybackURLFetched_failed _ _ Hfail). }
  destruct (reachable_views _ (reachable_step _ _ _ Hreach Hstep))
    as (_ & Hshape & _).
  simpl in Hshape.
  exists (set_sub_views sv' st).
  split; [now rewrite (OnWaybackURLFetched_failed _ _ Hfail)|]. simpl.
  rewrite (shape_before _ Hshape) in Hb. rewrite (shape_after _ Hshape) in Ha.
  unfold all_visible_is in Hb, Ha. rewrite Forall_forall in Hb, Ha.
  pose proof (shape_kinds _ Hshape) as Hkinds.
  split; [|split; [|split; [|split]]].
  - intros p v text Hv Hk.
    assert (Hp : (kind <$> store sv') !! p = Some (KMdTextButton text)).
    { rewrite list_lookup_fmap, Hv. simpl. now rewrite Hk. }
    rewrite Hkinds in Hp.
    assert (p = 7%nat) as ->.
    { do 8 (destruct p as [|p]; [try discriminate; try reflexivity|]).
      discriminate. }
    specialize (Hb 7%nat). unfold GetVisible in Hb. rewrite Hv in Hb.
    simpl in Hb. assert (Some (visible v) = Some false) as Hvis
      by (apply Hb; repeat constructor).
    now injection Hvis.
  - rewrite <- list_lookup_fmap, Hkinds. reflexivity.
  - apply Ha. repeat constructor.
  - rewrite <- list_lookup_fmap, Hkinds. reflexivity.
  - apply Ha. repeat constructor.
Qed.

(** X17: creating the infobar asks nothing of the browser: CreateInfoBar
    always returns a view, which has started no request, holds no loader and
    shows the URL of the tab; it is a reachable state. *)
Theorem CreateInfoBar_asks_nothing visible_url tp :
  ∃ st, CreateInfoBar visible_url tp = Ok st ∧
        host_calls st = [] ∧
        wayback_url_fetcher_ st = None ∧
        visible_url_spec st = visible_url ∧
        theme_provider (sub_views_ st) = tp ∧
        reachable st.
Proof.
  destruct (InfoBarViewSubViews_new_views tp) as (sv & Hsv & _ & _ & Htp & _).
  exists (mkInfoBar visible_url None sv []).
  assert (Hnew : BraveWaybackMachineInfoBarView_new visible_url tp
                 = Ok (mkInfoBar visible_url None sv [])).
  { rewrite BraveWaybackMachineInfoBarView_new_eq, Hsv. reflexivity. }
  split; [rewrite CreateInfoBar_eq, Hsv; reflexivity|].
  repeat (split; [reflexivity|]). split; [exact Htp|].
  exact (reachable_new visible_url tp _ Hnew).
Qed.

End InfoBarViewProperties.

(** * The further properties on concrete inputs *)

Ltac sample_reachable :=
  apply (reachable_new "http://example.com/gone" None); vm_compute; reflexivity.

Ltac visibility_by_computation := repeat constructor.

Lemma UpdateChildrenVisibility_last_call_wins_witness :
  well_formed (sub_views_ sample_infobar) ∧
  (UpdateChildrenVisibility false ;; UpdateChildrenVisibility true)
    (sub_views_ sample_infobar)
  = UpdateChildrenVisibility true (sub_views_ sample_infobar).
Proof.
  assert (Hwf : well_formed (sub_views_ sample_infobar))
    by well_formed_by_computation.
  split; [exact Hwf|].
  exact (UpdateChildrenVisibility_last_call_wins true false _ Hwf).
Defined.

Lemma UpdateChildrenVisibility_keeps_shown_state_witness :
  (well_formed (sub_views_ sample_infobar_failed) ∧
   all_visible_is (sub_views_ sample_infobar_failed) [2; 3; 4; 7]%nat false ∧
   all_visible_is (sub_views_ sample_infobar_failed) [5; 6]%nat true) ∧
  UpdateChildrenVisibility false (sub_views_ sample_infobar_failed)
  = Ok (tt, sub_views_ sample_infobar_failed).
Proof.
  assert (Hwf : well_formed (sub_views_ sample_infobar_failed))
    by well_formed_by_computation.
  assert (Hb : all_visible_is (sub_views_ sample_infobar_failed)
                 [2; 3; 4; 7]%nat false) by visibility_by_computation.
  assert (Ha : all_visible_is (sub_views_ sample_infobar_failed)
                 [5; 6]%nat true) by visibility_by_computation.
  split; [split; [exact Hwf | split; [exact Hb | exact Ha]]|].
  exact (UpdateChildrenVisibility_keeps_shown_state false _ Hwf Hb Ha).
Defined.

Lemma UpdateChildrenVisibility_there_and_back_witness :
  (well_formed (sub_views_ sample_infobar) ∧
   all_visible_is (sub_views_ sample_infobar) [2; 3; 4; 7]%nat true ∧
   all_visible_is (sub_views_ sample_infobar) [5; 6]%nat false) ∧
  (UpdateChildrenVisibility false ;; UpdateChildrenVisibility true)
    (sub_views_ sample_infobar)
  = Ok (tt, sub_views_ sample_infobar).
Proof.
  assert (Hwf : well_formed (sub_views_ sample_infobar))
    by well_formed_by_computation.
  assert (Hb : all_visible_is (sub_views_ sample_infobar)
                 [2; 3; 4; 7]%nat true) by visibility_by_computation.
  assert (Ha : all_visible_is (sub_views_ sample_infobar)
                 [5; 6]%nat false) by visibility_by_computation.
  split; [split; [exact Hwf | split; [exact Hb | exact Ha]]|].
  exact (UpdateChildrenVisibility_there_and_back true _ Hwf Hb Ha).
Defined.

Lemma OnThemeChanged_UpdateChildrenVisibility_commute_witness :
  well_formed (sub_views_ sample_infobar_themed) ∧
  (OnThemeChanged ;; UpdateChildrenVisibility false)
    (sub_views_ sample_infobar_themed)
  = (UpdateChildrenVisibility false ;; OnThemeChanged)
      (sub_views_ sample_infobar_themed).
Proof.
  assert (Hwf : well_formed (sub_views_ sample_infobar_themed))
    by well_formed_by_computation.
  split; [exact Hwf|].
  exact (OnThemeChanged_UpdateChildrenVisibility_commute false _ Hwf).
Defined.

Lemma OnThemeChanged_twice_witness :
  well_formed (sub_views_ sample_infobar) ∧
  (OnThemeChanged ;; OnThemeChanged) (sub_views_ sample_infobar)
  = OnThemeChanged (sub_views_ sample_infobar).
Proof.
  assert (Hwf : well_formed (sub_views_ sample_infobar))
    by well_formed_by_computation.
  split; [exact Hwf|].
  exact (OnThemeChanged_twice _ Hwf).
Defined.

Lemma views_are_fixed_after_construction_witness :
  reachable sample_infobar_failed ∧
  constructed_shape (sub_views_ sample_infobar_failed) ∧
  length (store (sub_views_ sample_infobar_failed)) = 8%nat.
Proof.
  assert (Hreach : reachable sample_infobar_failed).
  { apply (reachable_step (Fetched None) sample_infobar);
      [sample_reachable | vm_compute; reflexivity]. }
  split; [exact Hreach|].
  destruct (views_are_fixed_after_construction _ Hreach) as (Hshape & Hlen & _).
  split; [exact Hshape | exact Hlen].
Defined.

Lemma labels_follow_theme_witness :
  (BraveWaybackMachineInfoBarView_new "http://example.com/gone" None
     = Ok sample_infobar ∧
   run [Press 7%nat (mkEvent 0); ThemeChanged (Some dark_theme); Fetched None]
     sample_infobar = Ok sample_infobar_themed_failed) ∧
  labels_have_theme_colors (sub_views_ sample_infobar_themed_failed) ∧
  separator_color <$> store (sub_views_ sample_infobar_themed_failed) !! 1%nat
    = Some (Some 0xffe8eaed) ∧
  separator_color <$> store (sub_views_ sample_infobar) !! 1%nat = Some None.
Proof.
  assert (Hnew : BraveWaybackMachineInfoBarView_new "http://example.com/gone" None
                 = Ok sample_infobar) by (vm_compute; reflexivity).
  assert (Hrun : run [Press 7%nat (mkEvent 0); ThemeChanged (Some dark_theme);
                      Fetched None] sample_infobar
                 = Ok sample_infobar_themed_failed) by (vm_compute; reflexivity).
  assert (Hrun0 : run [] sample_infobar = Ok sample_infobar) by reflexivity.
  split; [split; [exact Hnew | exact Hrun]|].
  destruct (labels_follow_theme _ _ _ _ _ Hnew Hrun) as (Hcol & _ & Hsep).
  destruct (labels_follow_theme _ _ _ _ _ Hnew Hrun0) as (_ & _ & Hsep0).
  split; [exact Hcol|]. split; [exact Hsep | exact Hsep0].
Defined.

Lemma image_and_separator_stay_visible_witness :
  (reachable sample_infobar_failed ∧
   (1%nat ∈ children (sub_views_ sample_infobar_failed)) ∧
   (1%nat ∉ views_visible_before_checking_ (sub_views_ sample_infobar_failed)) ∧
   (1%nat ∉ views_visible_after_checking_ (sub_views_ sample_infobar_failed))) ∧
  GetVisible (sub_views_ sample_infobar_failed) 1%nat = Some true.
Proof.
  assert (Hreach : reachable sample_infobar_failed).
  { apply (reachable_step (Fetched None) sample_infobar);
      [sample_reachable | vm_compute; reflexivity]. }
  assert (Hc : 1%nat ∈ children (sub_views_ sample_infobar_failed))
    by (simpl; repeat constructor).
  assert (Hb : 1%nat ∉ views_visible_before_checking_
                         (sub_views_ sample_infobar_failed))
    by (simpl; not_in_list).
  assert (Ha : 1%nat ∉ views_visible_after_checking_
                         (sub_views_ sample_infobar_failed))
    by (simpl; not_in_list).
  split; [split; [exact Hreach | split; [exact Hc | split; [exact Hb | exact Ha]]]|].
  exact (image_and_separator_stay_visible _ 1%nat Hreach Hc Hb Ha).
Defined.

Lemma reachable_step_never_uses_invalid_pointer_witness :
  reachable sample_infobar ∧
  ((∃ st', step (Fetched (Some body_with_number)) sample_infobar = Ok st') ∨
   step (Fetched (Some body_with_number)) sample_infobar = Fault CHECK_failed).
Proof.
  assert (Hreach : reachable sample_infobar) by sample_reachable.
  split; [exact Hreach|].
  destruct (reachable_step_never_uses_invalid_pointer sample_infobar
              (Fetched (Some body_with_number)) Hreach) as [Hok | [Hcheck _]].
  - left. exact Hok.
  - right. exact Hcheck.
Defined.

Lemma fetcher_is_last_request_witness :
  reachable sample_infobar_pressed ∧
  wayback_url_fetcher_ sample_infobar_pressed
  = last_loader (host_calls sample_infobar_pressed).
Proof.
  assert (Hreach : reachable sample_infobar_pressed).
  { apply (reachable_step (Press 7%nat (mkEvent 0)) sample_infobar);
      [sample_reachable | reflexivity]. }
  split; [exact Hreach|].
  exact (proj1 (fetcher_is_last_request _ Hreach)).
Defined.

Lemma navigations_are_paired_witness :
  reachable sample_infobar_navigated ∧
  host_calls sample_infobar_navigated =
    [DownloadToString
       (Create (mkRequest (MakeGURL
          "https://archive.org/wayback/available?url=http://example.com/gone"))
          GetNetworkTrafficAnnotationTag) kMaxBodySize;
     NavigationController_LoadURL (MakeGURL snapshot_url) NoReferrer
       PAGE_TRANSITION_LINK EmptyString;
     RemoveInfoBar] ∧
  navigations_paired (host_calls sample_infobar_navigated) = true ∧
  host_calls sample_infobar_navigated
    `prefix_of` host_calls (ButtonPressed 7%nat (mkEvent 0) sample_infobar_navigated).
Proof.
  assert (Hreach : reachable sample_infobar_navigated).
  { apply (reachable_step (Fetched (Some body_with_snapshot)) sample_infobar_pressed).
    - apply (reachable_step (Press 7%nat (mkEvent 0)) sample_infobar);
        [sample_reachable | reflexivity].
    - vm_compute. reflexivity. }
  split; [exact Hreach|]. split; [reflexivity|].
  destruct (navigations_are_paired _ Hreach) as [Hpaired Hgrows].
  split; [exact Hpaired|].
  exact (Hgrows (Press 7%nat (mkEvent 0)) _ eq_refl).
Defined.

Lemma one_request_per_press_witness :
  run [Press 7%nat (mkEvent 0); Fetched None; Navigated "http://example.com/other";
       Press 7%nat (mkEvent 0)] sample_infobar
  = Ok (mkInfoBar "http://example.com/other"
          (Some (Create (mkRequest (MakeGURL
             "https://archive.org/wayback/available?url=http://example.com/other"))
             GetNetworkTrafficAnnotationTag))
          (sub_views_ sample_infobar_failed)
          [DownloadToString
             (Create (mkRequest (MakeGURL
                "https://archive.org/wayback/available?url=http://example.com/gone"))
                GetNetworkTrafficAnnotationTag) kMaxBodySize;
           DownloadToString
             (Create (mkRequest (MakeGURL
                "https://archive.org/wayback/available?url=http://example.com/other"))
                GetNetworkTrafficAnnotationTag) kMaxBodySize]) ∧
  length (requests [DownloadToString
             (Create (mkRequest (MakeGURL
                "https://archive.org/wayback/available?url=http://example.com/gone"))
                GetNetworkTrafficAnnotationTag) kMaxBodySize;
           DownloadToString
             (Create (mkRequest (MakeGURL
                "https://archive.org/wayback/available?url=http://example.com/other"))
                GetNetworkTrafficAnnotationTag) kMaxBodySize]) = 2%nat.
Proof.
  assert (Hrun : run [Press 7%nat (mkEvent 0); Fetched None;
                      Navigated "http://example.com/other";
                      Press 7%nat (mkEvent 0)] sample_infobar
                 = Ok (mkInfoBar "http://example.com/other"
          (Some (Create (mkRequest (MakeGURL
             "https://archive.org/wayback/available?url=http://example.com/other"))
             GetNetworkTrafficAnnotationTag))
          (sub_views_ sample_infobar_failed)
          [DownloadToString
             (Create (mkRequest (MakeGURL
                "https://archive.org/wayback/available?url=http://example.com/gone"))
                GetNetworkTrafficAnnotationTag) kMaxBodySize;
           DownloadToString
             (Create (mkRequest (MakeGURL
                "https://archive.org/wayback/available?url=http://example.com/other"))
                GetNetworkTrafficAnnotationTag) kMaxBodySize]))
    by (vm_compute; reflexivity).
  split; [exact Hrun|].
  exact (one_request_per_press _ _ _ Hrun).
Defined.

Lemma failed_fetch_twice_witness :
  (reachable sample_infobar ∧ fetch_failed None ∧
   fetch_failed (Some body_without_snapshot)) ∧
  ∃ st1, OnWaybackURLFetched None sample_infobar = Ok st1 ∧
         OnWaybackURLFetched (Some body_without_snapshot) st1 = Ok st1.
Proof.
  assert (Hreach : reachable sample_infobar) by sample_reachable.
  assert (Hf1 : fetch_failed None) by (left; reflexivity).
  assert (Hf2 : fetch_failed (Some body_without_snapshot)).
  { right. right.
    exists body_without_snapshot, (DICTIONARY [("archived_snapshots", DICTIONARY [])]).
    split; [reflexivity|]. split; vm_compute; reflexivity. }
  split; [split; [exact Hreach | split; [exact Hf1 | exact Hf2]]|].
  exact (failed_fetch_twice _ _ _ Hreach Hf1 Hf2).
Defined.

Lemma failed_fetch_hides_check_button_witness :
  (reachable sample_infobar_pressed ∧ fetch_failed None) ∧
  ∃ st', OnWaybackURLFetched None sample_infobar_pressed = Ok st' ∧
         GetVisible (sub_views_ st') 5%nat = Some true.
Proof.
  assert (Hreach : reachable sample_infobar_pressed).
  { apply (reachable_step (Press 7%nat (mkEvent 0)) sample_infobar);
      [sample_reachable | reflexivity]. }
  assert (Hf : fetch_failed None) by (left; reflexivity).
  split; [split; [exact Hreach | exact Hf]|].
  destruct (failed_fetch_hides_check_button _ _ Hreach Hf)
    as (st' & Hrun & _ & _ & Hvis & _).
  exists st'. split; [exact Hrun | exact Hvis].
Defined.

Section LabelProperties.
Context `{Toolkit}.

(** X18: a change of theme shows and hides nothing: OnThemeChanged on a
    well-formed container runs to its end and leaves the visibility, the kind
    and the settings of every view, and the vectors of the container, as they
    are. *)
Theorem OnThemeChanged_keeps_visibility s :
  well_formed s →
  ∃ s', OnThemeChanged s = Ok (tt, s') ∧
        s' = set_store (store s') s ∧
        (∀ p, GetVisible s' p = GetVisible s p) ∧
        kind <$> store s' = kind <$> store s ∧
        settings <$> store s' = settings <$> store s.
Proof.
  intros Hwf. destruct (wf_separator s Hwf) as (sep & Hsep & _).
  eexists. split; [exact (OnThemeChanged_eq s sep Hwf Hsep)|].
  split; [reflexivity|]. simpl. split; [|split].
  - intros p. unfold GetVisible. simpl.
    rewrite <- !list_lookup_fmap. now rewrite !fmap_apply_on by reflexivity.
  - now rewrite !fmap_apply_on by reflexivity.
  - now rewrite !fmap_apply_on by reflexivity.
Qed.

(** X19: CreateLabel makes one new view and touches no other: the label is
    the last of labels_, it is in no visibility set and not yet a child, the
    views there were are unchanged, and if the labels had the colours of the
    theme before, they all have them after. *)
Theorem CreateLabel_keeps_label_colors text s :
  Forall (λ p, (p < length (store s))%nat) (labels_ s) →
  labels_have_theme_colors s →
  ∃ label s',
    CreateLabel text s = Ok (label, s') ∧
    label = length (store s) ∧
    length (store s') = S (length (store s)) ∧
    labels_ s' = labels_ s ++ [label] ∧
    children s' = children s ∧
    views_visible_before_checking_ s' = views_visible_before_checking_ s ∧
    views_visible_after_checking_ s' = views_visible_after_checking_ s ∧
    (∀ p, (p < length (store s))%nat → store s' !! p = store s !! p) ∧
    labels_have_theme_colors s'.
Proof.
  intros Hvalid Hcol. eexists _, _. split; [apply CreateLabel_spec|]. simpl.
  split; [reflexivity|]. split; [now rewrite last_length|].
  repeat (split; [reflexivity|]). split.
  - intros p Hp. now apply lookup_app_l.
  - unfold labels_have_theme_colors in *. simpl. apply Forall_app. split.
    + rewrite Forall_forall in Hvalid, Hcol |- *. intros p Hp.
      rewrite lookup_app_l by now apply Hvalid. now apply Hcol.
    + repeat constructor; rewrite list_lookup_middle by reflexivity; reflexivity.
Qed.

End LabelProperties.

Lemma OnThemeChanged_keeps_visibility_witness :
  well_formed (sub_views_ sample_infobar_failed) ∧
  ∃ s', OnThemeChanged (sub_views_ sample_infobar_failed) = Ok (tt, s') ∧
        GetVisible s' 7%nat = Some false ∧ GetVisible s' 5%nat = Some true.
Proof.
  assert (Hwf : well_formed (sub_views_ sample_infobar_failed))
    by well_formed_by_computation.
  split; [exact Hwf|].
  destruct (OnThemeChanged_keeps_visibility _ Hwf) as (s' & Hrun & _ & Hvis & _).
  exists s'. split; [exact Hrun|]. split; rewrite Hvis; reflexivity.
Defined.

Lemma CreateLabel_keeps_label_colors_witness :
  (Forall (λ p, (p < length (store (sub_views_ sample_infobar)))%nat)
          (labels_ (sub_views_ sample_infobar)) ∧
   labels_have_theme_colors (sub_views_ sample_infobar)) ∧
  ∃ label s', CreateLabel "Checking..." (sub_views_ sample_infobar) = Ok (label, s') ∧
              label = 8%nat ∧
              labels_ s' = [2; 3; 5; 8]%nat.
Proof.
  assert (Hvalid : Forall (λ p, (p < length (store (sub_views_ sample_infobar)))%nat)
                     (labels_ (sub_views_ sample_infobar)))
    by (simpl; repeat constructor).
  assert (Hcol : labels_have_theme_colors (sub_views_ sample_infobar))
    by (repeat constructor).
  split; [split; [exact Hvalid | exact Hcol]|].
  destruct (CreateLabel_keeps_label_colors "Checking..." _ Hvalid Hcol)
    as (label & s' & Hrun & Hlabel & _ & Hlabels & _).
  exists label, s'. split; [exact Hrun|]. split; [exact Hlabel|].
  rewrite Hlabels, Hlabel. reflexivity.
Defined.
